(** * Helius WebSocket backend: ingestion, enrichment and classification

    A shallow embedding of [HeliusWebSocketBackend] and [TransactionFilters]
    (the wallet-tracker's ingestion module) together with the properties
    its specification states about them.

    Conventions of the embedding.
    - A JavaScript string is a [string]: a sequence of 8-bit characters.
      Case conversion acts on the letters A-Z / a-z and [trim] removes the
      ASCII white space characters; characters above 127 have no case.
    - A JavaScript Number is an IEEE-754 binary64 value, [spec_float] with
      precision 53 and maximal exponent 1024, computed with the operations
      of [SpecFloat].  Time stamps ([Date.now()]) and counters are integers.
    - A field that may be missing ([undefined] / [null]) is an [option].
    - Each method is a function on the backend state; what it does to the
      outside world (HTTP requests, socket traffic, timers, the notification
      callback) is appended to the [effects] log of the state.  The results
      of the awaited HTTP calls are inputs of the model.  Console output is
      not modelled. *)

From Stdlib Require Import ZArith List String Ascii Bool Lia.
From Stdlib Require Import Floats.SpecFloat.
From Stdlib Require Import DecimalString DecimalN.
From stdpp Require Import gmap strings list fin_maps.

Local Open Scope string_scope.

(** ** JavaScript strings *)

Module JsString.

Definition code (c : ascii) : nat := nat_of_ascii c.

Definition in_range (lo hi : ascii) (c : ascii) : bool :=
  (code lo <=? code c)%nat && (code c <=? code hi)%nat.

Definition upper_char (c : ascii) : ascii :=
  if in_range "a" "z" c then ascii_of_nat (code c - 32) else c.

Definition lower_char (c : ascii) : ascii :=
  if in_range "A" "Z" c then ascii_of_nat (code c + 32) else c.

Fixpoint map_chars (f : ascii -> ascii) (s : string) : string :=
  match s with
  | EmptyString => EmptyString
  | String c r => String (f c) (map_chars f r)
  end.

(** [s.toUpperCase()] and [s.toLowerCase()]. *)
Definition toUpperCase : string -> string := map_chars upper_char.
Definition toLowerCase : string -> string := map_chars lower_char.

(** White space removed by [trim]: TAB, LF, VT, FF, CR and space. *)
Definition is_space (c : ascii) : bool :=
  let n := code c in ((9 <=? n)%nat && (n <=? 13)%nat) || (n =? 32)%nat.

Fixpoint trimStart (s : string) : string :=
  match s with
  | String c r => if is_space c then trimStart r else s
  | EmptyString => EmptyString
  end.

(** Drops the trailing white space: a character is kept when it is not
    white space or when something is kept after it. *)
Fixpoint trimEnd (s : string) : string :=
  match s with
  | EmptyString => EmptyString
  | String c r =>
      match trimEnd r with
      | EmptyString => if is_space c then EmptyString else String c EmptyString
      | r' => String c r'
      end
  end.

(** [s.trim()]. *)
Definition trim (s : string) : string := trimEnd (trimStart s).

(** [s.includes(sub)]: [sub] occurs in [s] at some position. *)
Fixpoint includes (s sub : string) : bool :=
  String.prefix sub s ||
  match s with
  | EmptyString => false
  | String _ r => includes r sub
  end.

(** [s.startsWith(p)] and the rest of [s] after it. *)
Fixpoint strip_prefix (p s : string) : option string :=
  match p, s with
  | EmptyString, _ => Some s
  | String a p', String b s' =>
      if Ascii.eqb a b then strip_prefix p' s' else None
  | String _ _, EmptyString => None
  end.

(** Truthiness of a possibly missing string: [undefined], [null] and the
    empty string are falsy. *)
Definition truthy (o : option string) : bool :=
  match o with
  | Some s => negb (String.eqb s "")
  | None => false
  end.

(** [a === b] between a possibly missing string and a string. *)
Definition strict_eq (o : option string) (s : string) : bool :=
  match o with
  | Some t => String.eqb t s
  | None => false
  end.

End JsString.

(** ** Transaction filters *)

(** The object handed to the notification callback ([transactionData]).
    The fallback event carries no [buySell], [solAmount] or [mintAddress];
    the event of the enhanced path carries no [mintAddress]. *)
Record TransactionData := mkTransactionData {
  td_signature : string;
  td_wallet : option string;
  td_token : option string;
  td_amount : string;
  td_buySell : option string;
  td_solAmount : option spec_float;
  td_type : option string;
  td_mintAddress : option string;
  td_timestamp : Z
}.

Module TransactionFilters.
Import JsString.

Definition blacklistedTokens : list string :=
  [ "Unknown"; "N/A"; ""; "?"; "-"; "UNK"; "UNKNOWN";
    "SOL"; "WSOL"; "wSOL"; "cwSOL"; "cSOL"; "stSOL"; "mSOL"; "jitoSOL"; "bSOL" ].

Definition blacklistedWalletNames : list string :=
  [ "Activity"; "Activity..."; "Activity Detected"; "Transaction Detected";
    "Account Update"; "Account Change"; "Unknown"; "Fallback";
    "Generic Transaction" ].

Definition blacklistedTransactionTypes : list string :=
  [ "fallback"; "account_change"; "system_transaction"; "generic_activity" ].

Definition isTokenBlacklisted (token : option string) : bool :=
  if negb (truthy token) then true
  else
    match token with
    | Some t =>
        let normalizedToken := toUpperCase (trim t) in
        existsb (fun blacklisted => String.eqb normalizedToken (toUpperCase blacklisted))
                blacklistedTokens
    | None => true
    end.

Definition isWalletNameBlacklisted (walletName : option string) : bool :=
  if negb (truthy walletName) then false
  else
    match walletName with
    | Some w =>
        let normalizedName := trim w in
        existsb (fun blacklisted => includes normalizedName blacklisted)
                blacklistedWalletNames
    | None => false
    end.

Definition isTransactionTypeBlacklisted (type : option string) : bool :=
  if negb (truthy type) then false
  else
    match type with
    | Some t => existsb (String.eqb t) blacklistedTransactionTypes
    | None => false
    end.

Definition hasValidTokenLength (token : option string) : bool :=
  if negb (truthy token) then false
  else
    match token with
    | Some t => (2 <=? String.length (trim t))%nat
    | None => false
    end.

(** [shouldShowTransaction(transactionData)]; [None] stands for an argument
    that is missing or not an object. *)
Definition shouldShowTransaction (transactionData : option TransactionData) : bool :=
  match transactionData with
  | None => false
  | Some td =>
      let token := td_token td in
      if (if truthy token && negb (strict_eq token "SOL") && negb (strict_eq token "WSOL")
          then (match token with
                | Some t => (2 <=? String.length t)%nat
                | None => false
                end) && negb (isTokenBlacklisted token)
          else false)
      then true
      else if isTokenBlacklisted token then false
      else if isWalletNameBlacklisted (td_wallet td) then false
      else if isTransactionTypeBlacklisted (td_type td) then false
      else if negb (hasValidTokenLength token) then false
      else if strict_eq (td_type td) "enhanced_transaction"
              && negb (truthy (td_mintAddress td)) then false
      else true
  end.

End TransactionFilters.

(** ** JavaScript numbers, BigInt and their conversions *)

Module JsNumber.
Import JsString.

Definition number : Type := spec_float.

Definition add : number -> number -> number := SFadd 53 1024.
Definition div : number -> number -> number := SFdiv 53 1024.
Definition abs : number -> number := SFabs.
Definition ltb : number -> number -> bool := SFltb.
Definition leb : number -> number -> bool := SFleb.
(** [a > b] and [a >= b]; both are false when an operand is NaN. *)
Definition gtb (a b : number) : bool := SFltb b a.
Definition geb (a b : number) : bool := SFleb b a.
(** [a !== b] on numbers: NaN differs from everything. *)
Definition neqb (a b : number) : bool := negb (SFeqb a b).

Definition NaN : number := S754_nan.
Definition zero : number := S754_zero false.

(** The Number nearest to an integer (ties to even). *)
Definition of_Z (z : Z) : number := binary_normalize 53 1024 z 0 false.

(** The Number nearest to [m * 10^e10] (ties to even), [m >= 0]. *)
Definition of_decimal (m e10 : Z) : number :=
  if (0 <=? e10)%Z then of_Z (m * 10 ^ e10)
  else
    match m with
    | Zpos p => SFdiv 53 1024 (S754_finite false p 0)
                              (S754_finite false (Z.to_pos (10 ^ (- e10))) 0)
    | _ => zero
    end.

(** Value of one digit in the given radix. *)
Definition digit_value (radix : Z) (c : ascii) : option Z :=
  let n := Z.of_nat (code c) in
  let v := if in_range "0" "9" c then Some (n - 48)%Z
           else if in_range "a" "z" c then Some (n - 87)%Z
           else if in_range "A" "Z" c then Some (n - 55)%Z
           else None in
  match v with
  | Some d => if (d <? radix)%Z then Some d else None
  | None => None
  end.

(** Reads the longest run of digits at the head of [s]: its value on top
    of [acc], the number of digits read, and the rest of the string. *)
Fixpoint read_digits (radix : Z) (s : string) (acc : Z) (count : nat)
  : Z * nat * string :=
  match s with
  | String c r =>
      match digit_value radix c with
      | Some d => read_digits radix r (acc * radix + d)%Z (S count)
      | None => (acc, count, s)
      end
  | EmptyString => (acc, count, s)
  end.

(** A whole string of digits (at least one). *)
Definition all_digits (radix : Z) (s : string) : option Z :=
  match read_digits radix s 0 0 with
  | (v, S _, EmptyString) => Some v
  | _ => None
  end.

(** An optional sign at the head of [s]: [true] for a minus sign. *)
Definition read_sign (s : string) : bool * string :=
  match s with
  | String "-" r => (true, r)
  | String "+" r => (false, r)
  | _ => (false, s)
  end.

Definition apply_sign (neg : bool) (z : Z) : Z := if neg then (- z)%Z else z.

(** [BigInt(s)] on a string; [None] is the SyntaxError. *)
Definition BigInt_of_string (s : string) : option Z :=
  let t := trim s in
  match t with
  | EmptyString => Some 0%Z
  | String "0" (String x r) =>
      if Ascii.eqb (lower_char x) "x" then all_digits 16 r
      else if Ascii.eqb (lower_char x) "o" then all_digits 8 r
      else if Ascii.eqb (lower_char x) "b" then all_digits 2 r
      else all_digits 10 t
  | _ =>
      let (neg, body) := read_sign t in
      option_map (apply_sign neg) (all_digits 10 body)
  end.

(** [BigInt(x)] on a Number; [None] is the RangeError raised for a value
    that is not an integer. *)
Definition BigInt_of_number (x : number) : option Z :=
  match x with
  | S754_zero _ => Some 0%Z
  | S754_finite s m e =>
      if (0 <=? e)%Z then Some (apply_sign s (Zpos m * 2 ^ e))
      else if (Zpos m mod 2 ^ (- e) =? 0)%Z
           then Some (apply_sign s (Zpos m / 2 ^ (- e)))
           else None
  | _ => None
  end.

(** [parseInt(s)] without radix; [None] is NaN. *)
Definition parseInt (s : string) : option Z :=
  let (neg, body) := read_sign (trimStart s) in
  let (radix, ds) :=
    match body with
    | String "0" (String x r) =>
        if Ascii.eqb (lower_char x) "x" then (16%Z, r) else (10%Z, body)
    | _ => (10%Z, body)
    end in
  match read_digits radix ds 0 0 with
  | (_, O, _) => None
  | (v, S _, _) => Some (apply_sign neg v)
  end.

(** The exponent part of a decimal literal, when [s] starts with one. *)
Definition read_exponent (s : string) : Z :=
  match s with
  | String c r =>
      if Ascii.eqb (lower_char c) "e" then
        let (neg, ds) := read_sign r in
        match read_digits 10 ds 0 0 with
        | (_, O, _) => 0%Z
        | (v, S _, _) => apply_sign neg v
        end
      else 0%Z
  | EmptyString => 0%Z
  end.

Definition with_sign (neg : bool) (x : number) : number :=
  if neg then SFopp x else x.

(** [parseFloat(s)] on a string: the longest decimal literal at the head
    of [s] after leading white space, NaN when there is none. *)
Definition parseFloat (s : string) : number :=
  let (neg, body) := read_sign (trimStart s) in
  match strip_prefix "Infinity" body with
  | Some _ => S754_infinity neg
  | None =>
      let '(ip, nip, r1) := read_digits 10 body 0 0 in
      let '(m, nfp, r2) :=
        match r1 with
        | String "." r => read_digits 10 r ip 0
        | _ => (ip, O, r1)
        end in
      match (nip + nfp)%nat with
      | O => NaN
      | S _ =>
          match m with
          | Z0 => S754_zero neg
          | _ => with_sign neg (of_decimal m (read_exponent r2 - Z.of_nat nfp))
          end
      end
  end.

(** [parseFloat(x)] on a Number: the value read back from its own string,
    which is the value itself, [-0] becoming [0]. *)
Definition parseFloat_number (x : number) : number :=
  match x with
  | S754_zero _ => zero
  | _ => x
  end.

(** Decimal digits of a non-negative integer. *)
Definition digits (n : Z) : string := NilZero.string_of_uint (N.to_uint (Z.to_N n)).

Fixpoint zeros (n : nat) : string :=
  match n with
  | O => EmptyString
  | S k => String "0" (zeros k)
  end.

(** The integer nearest to [m * 2^e * 10^f], the larger one on a tie. *)
Definition round_scaled (m : positive) (e : Z) (f : nat) : Z :=
  let num := (Zpos m * 10 ^ Z.of_nat f)%Z in
  if (0 <=? e)%Z then (num * 2 ^ e)%Z
  else let den := (2 ^ (- e))%Z in ((2 * num + den) / (2 * den))%Z.

(** The digits of [n] with a decimal point before the last [f] of them. *)
Definition fixed_digits (n : Z) (f : nat) : string :=
  let m := digits n in
  match f with
  | O => m
  | S _ =>
      let k := String.length m in
      let m' := if (k <=? f)%nat then zeros (f + 1 - k) +:+ m else m in
      let k' := String.length m' in
      String.substring 0 (k' - f) m' +:+ "." +:+ String.substring (k' - f) f m'
  end.

Fixpoint strip_trailing_zeros (s : string) : string :=
  match s with
  | EmptyString => EmptyString
  | String c r =>
      match strip_trailing_zeros r with
      | EmptyString => if Ascii.eqb c "0" then EmptyString else String c EmptyString
      | r' => String c r'
      end
  end.

(** The shortest decimal [s * 10^(nd - k)] that reads back as [x], for an
    integer-valued [x] whose exact value [X] has [nd] decimal digits;
    digit counts [k], [k+1], ... are tried in turn. *)
Fixpoint shortest_decimal (fuel k : nat) (x : number) (X : Z) (nd : nat) : Z :=
  match fuel with
  | O => X
  | S fuel' =>
      let scale := (10 ^ Z.of_nat (nd - k))%Z in
      let lo := (X / scale * scale)%Z in
      let hi := (lo + scale)%Z in
      let ok_lo := SFeqb (of_Z lo) x in
      let ok_hi := SFeqb (of_Z hi) x in
      if ok_lo && ok_hi then
        match (X - lo ?= hi - X)%Z with
        | Lt => lo
        | Gt => hi
        | Eq => if Z.even (X / scale) then lo else hi
        end
      else if ok_lo then lo
      else if ok_hi then hi
      else shortest_decimal fuel' (S k) x X nd
  end.

(** [String(x)] for an integer-valued [x >= 1e21] of exact value [X]:
    exponential notation on the shortest digits. *)
Definition toString_large (x : number) (X : Z) : string :=
  let V := shortest_decimal 17 1 x X (String.length (digits X)) in
  let all := digits V in
  let n := String.length all in
  match strip_trailing_zeros all with
  | String d EmptyString => String d ("e+" +:+ digits (Z.of_nat (n - 1)))
  | String d r => String d ("." +:+ r +:+ "e+" +:+ digits (Z.of_nat (n - 1)))
  | EmptyString => "0"
  end.

(** [x.toFixed(f)]. *)
Definition toFixed (x : number) (f : nat) : string :=
  match x with
  | S754_nan => "NaN"
  | S754_infinity s => if s then "-Infinity" else "Infinity"
  | S754_zero _ => fixed_digits 0 f
  | S754_finite s m e =>
      (if s then "-" else "") +:+
      (if geb (abs x) (of_Z (10 ^ 21))
       then match BigInt_of_number (abs x) with
            | Some X => toString_large (abs x) X
            | None => fixed_digits (round_scaled m e f) f
            end
       else fixed_digits (round_scaled m e f) f)
  end.

(** Groups the digits of an integer by three with commas. *)
Fixpoint group_from (s : string) (n : nat) : string :=
  match s with
  | EmptyString => EmptyString
  | String c r =>
      match n with
      | O => String c (group_from r O)
      | S k =>
          if ((0 <? k)%nat && (k mod 3 =? 0)%nat)%bool
          then String c (String "," (group_from r k))
          else String c (group_from r k)
      end
  end.

Definition grouped (s : string) : string := group_from s (String.length s).

(** [x.toLocaleString('en-US', { minimumFractionDigits: 0,
    maximumFractionDigits: 6 })]: at most six fraction digits (rounded
    half away from zero), trailing zeros dropped, thousands grouped. *)
Definition toLocaleString_max6 (x : number) : string :=
  match x with
  | S754_nan => "NaN"
  | S754_infinity s =>
      (if s then "-" else "") +:+
      String (ascii_of_nat 226) (String (ascii_of_nat 136) (String (ascii_of_nat 158) ""))
  | S754_zero s => if s then "-0" else "0"
  | S754_finite s m e =>
      let n := round_scaled m e 6 in
      let ip := (n / 10 ^ 6)%Z in
      let fp := digits (n mod 10 ^ 6) in
      let frac := strip_trailing_zeros (zeros (6 - String.length fp) +:+ fp) in
      (if s then "-" else "") +:+ grouped (digits ip) +:+
      match frac with
      | EmptyString => ""
      | _ => "." +:+ frac
      end
  end.

End JsNumber.

(** ** Records of the upstream payloads *)

(** An entry of [enhancedTx.tokenTransfers].  Amounts are taken in their
    string form, the one [formatTokenAmount] works on. *)
Record TokenTransfer := mkTokenTransfer {
  tt_mint : option string;
  tt_tokenAmount : option string;
  tt_tokenStandard : option string;
  tt_fromUserAccount : option string;
  tt_toUserAccount : option string
}.

(** An entry of [enhancedTx.nativeTransfers]. *)
Record NativeTransfer := mkNativeTransfer {
  nt_amount : option string;
  nt_fromUserAccount : option string;
  nt_toUserAccount : option string
}.

(** The detailed transaction returned by the transactions endpoint; of an
    entry of [accountData] only [mint] is read. *)
Record EnhancedTx := mkEnhancedTx {
  tx_type : option string;
  tx_tokenTransfers : option (list TokenTransfer);
  tx_nativeTransfers : option (list NativeTransfer);
  tx_accountData : option (list (option string))
}.

(** An entry of the [result] array of [getAssetBatch]:
    [content.metadata?.symbol] and [content.links?.image] are flattened. *)
Record AssetContent := mkAssetContent {
  ac_symbol : option string;
  ac_image : option string
}.

Record Asset := mkAsset {
  asset_id : option string;
  asset_content : option AssetContent
}.

(** What the POST to the asset-batch endpoint comes back with. *)
Inductive BatchResponse :=
| BatchResult (result : list (option Asset))   (* response.data.result *)
| BatchNoResult                                (* no data or no result *)
| BatchError.                                  (* axios.post threw *)

(** Token metadata as cached and as returned to the caller; the placeholder
    [{ symbol: 'N/A', image: null }] has no [expiry]. *)
Record TokenInfo := mkTokenInfo {
  ti_symbol : string;
  ti_image : option string;
  ti_expiry : option Z
}.

Inductive TradeType := BUY | SELL.

Definition TradeType_eqb (a b : TradeType) : bool :=
  match a, b with
  | BUY, BUY | SELL, SELL => true
  | _, _ => false
  end.

(** The [decimals] argument of [formatTokenAmount]: a string, an integer
    Number, or a value of another type. *)
Inductive Decimals :=
| DecString (s : string)
| DecNumber (z : Z)
| DecOther.

(** An element of the array built by [extractTokenAmounts]. *)
Record TokenAmount := mkTokenAmount {
  ta_mint : option string;
  ta_rawAmount : string + spec_float;
  ta_decimals : option Decimals;
  ta_humanAmount : string;
  ta_solAmount : spec_float;
  ta_type : TradeType;
  ta_isSOL : bool;
  ta_fromUserAccount : option string;
  ta_toUserAccount : option string
}.

(** ** Amount formatting *)

Module Format.
Import JsString JsNumber.

(** [10 ** decimals] for an integer [decimals]. *)
Definition pow10 (decimals : Z) : number :=
  if (decimals <? 0)%Z then div (of_Z 1) (of_Z (10 ^ (- decimals)))
  else if (308 <? decimals)%Z then S754_infinity false
  else of_Z (10 ^ decimals).

Definition formatAmountWithUnits (decimalAmount : number) : string :=
  if geb decimalAmount (of_Z 1000000000) then
    toFixed (div decimalAmount (of_Z 1000000000)) 2 +:+ "B tokens"
  else if geb decimalAmount (of_Z 1000000) then
    toFixed (div decimalAmount (of_Z 1000000)) 2 +:+ "M tokens"
  else if geb decimalAmount (of_Z 1000) then
    toFixed (div decimalAmount (of_Z 1000)) 2 +:+ "K tokens"
  else if geb decimalAmount (of_Z 1) then
    toLocaleString_max6 decimalAmount +:+ " tokens"
  else
    toFixed decimalAmount 6 +:+ " tokens".

(** The number of decimals [formatTokenAmount] ends up with. *)
Definition normalizeDecimals (decimals : Decimals) : Z :=
  match decimals with
  | DecString s =>
      if String.eqb s "Fungible" then 6%Z
      else match parseInt s with
           | Some parsedDecimals => parsedDecimals
           | None => 9%Z
           end
  | DecNumber z => z
  | DecOther => 9%Z
  end.

(** [formatTokenAmount(rawAmount, decimals)].  Every exception of the body
    (the SyntaxError of [BigInt] on a string, its RangeError on a Number
    that is not an integer, the RangeError of a division by [0n]) ends in
    ['N/A']. *)
Definition formatTokenAmount (rawAmount : option string) (decimals : Decimals) : string :=
  match rawAmount with
  | None => "N/A"
  | Some amountStr =>
      if String.eqb amountStr "" then "N/A"
      else
        let decimals := normalizeDecimals decimals in
        if includes amountStr "." then
          let decimalAmount := parseFloat amountStr in
          match decimalAmount with
          | S754_nan => "N/A"
          | _ => formatAmountWithUnits decimalAmount
          end
        else
          match BigInt_of_string amountStr with
          | None => "N/A"
          | Some rawAmountBigInt =>
              match BigInt_of_number (pow10 decimals) with
              | None => "N/A"
              | Some divisor =>
                  if (divisor =? 0)%Z then "N/A"
                  else
                    let wholePart := Z.quot rawAmountBigInt divisor in
                    let remainder := Z.rem rawAmountBigInt divisor in
                    let decimalAmount :=
                      add (of_Z wholePart) (div (of_Z remainder) (of_Z divisor)) in
                    formatAmountWithUnits decimalAmount
              end
          end
  end.

(** [formatSOLAmountDirect(solAmount)] on a Number. *)
Definition formatSOLAmountDirect (solAmount : number) : string :=
  let amount := parseFloat_number solAmount in
  if geb amount (of_Z 1000) then
    toFixed (div amount (of_Z 1000)) 2 +:+ "K SOL"
  else if geb amount (of_Z 1) then
    toFixed amount 3 +:+ " SOL"
  else if geb amount (of_decimal 1 (-3)) then
    toFixed amount 4 +:+ " SOL"
  else
    toFixed amount 6 +:+ " SOL".

End Format.

(** ** The backend object *)

(** Work handed to [setTimeout]. *)
Inductive Task :=
| TaskConnect.

(** What the backend does to the outside world. *)
Inductive Effect :=
| HttpEnhancedTransaction (apiKey : option string) (signature : string)
| HttpAssetBatch (apiKey : option string) (ids : list string)
| Notify (transactionData : TransactionData)
| WsOpen (apiKey : option string)
| WsClose (code : Z) (reason : string)
| WsSend (walletAddress : string)
| SetTimeout (task : Task) (delay : Z).

(** The fields of [HeliusWebSocketBackend] read or written by the methods
    below.  [trackedWallets] is a JavaScript [Set]: its elements in
    insertion order, without repetition.  [websocket] tells whether the
    field holds a socket, [onTransactionReceived] whether a handler is
    registered (the handler is taken not to throw).

    The two request queues only delay a request: each queued request is
    served, in its turn, by [fetchEnhancedTransactionDirect] or
    [fetchAssetInfoDirect] on the argument it was queued with.  The model
    serves a request at once and leaves the queues and their timers out. *)
Record Backend := mkBackend {
  heliusApiKeys : list string;
  currentApiKeyIndex : nat;
  callsPerKey : nat;
  maxCallsPerRotation : nat;
  trackedWallets : list string;
  websocket : bool;
  isConnected : bool;
  tokenInfoCache : gmap string TokenInfo;
  cacheExpiry : Z;
  onTransactionReceived : bool;
  effects : list Effect
}.

(** What the POST to the transactions endpoint comes back with. *)
Inductive EnhancedResponse :=
| EnhancedData (data : list (option EnhancedTx))   (* response.data *)
| EnhancedNoData                                   (* no data *)
| EnhancedError.                                   (* axios.post threw *)

(** A frame received on the socket, after [JSON.parse]:
    [data.method] and [data.params.result.value?.signature]. *)
Record Frame := mkFrame {
  fr_method : option string;
  fr_signature : option string
}.

Module Helius.
Import JsString JsNumber Format.

(** The state left by the constructor. *)
Definition constructor : Backend :=
  {| heliusApiKeys :=
       [ "1db40a7c-2b94-426e-ad17-03f1fbe960ed";
         "8022b6b9-1888-4512-bc53-51be264f311e";
         "0ab96068-f225-4798-9ae8-a45174eeb178";
         "4e0ae544-dee2-4f5d-b4b5-025ef2a92773";
         "0dc33dba-fbd3-4120-84c3-52ccebafe757" ];
     currentApiKeyIndex := 0;
     callsPerKey := 0;
     maxCallsPerRotation := 100;
     trackedWallets := [];
     websocket := false;
     isConnected := false;
     tokenInfoCache := ∅;
     cacheExpiry := 5 * 60 * 1000;
     onTransactionReceived := false;
     effects := [] |}.

(** *** Field updates *)

Definition emit (e : Effect) (st : Backend) : Backend :=
  mkBackend (heliusApiKeys st) (currentApiKeyIndex st) (callsPerKey st)
    (maxCallsPerRotation st) (trackedWallets st) (websocket st) (isConnected st)
    (tokenInfoCache st) (cacheExpiry st) (onTransactionReceived st)
    (effects st ++ [e]).

Definition set_key (index calls : nat) (st : Backend) : Backend :=
  mkBackend (heliusApiKeys st) index calls
    (maxCallsPerRotation st) (trackedWallets st) (websocket st) (isConnected st)
    (tokenInfoCache st) (cacheExpiry st) (onTransactionReceived st) (effects st).

Definition set_trackedWallets (w : list string) (st : Backend) : Backend :=
  mkBackend (heliusApiKeys st) (currentApiKeyIndex st) (callsPerKey st)
    (maxCallsPerRotation st) w (websocket st) (isConnected st)
    (tokenInfoCache st) (cacheExpiry st) (onTransactionReceived st) (effects st).

Definition set_connection (ws connected : bool) (st : Backend) : Backend :=
  mkBackend (heliusApiKeys st) (currentApiKeyIndex st) (callsPerKey st)
    (maxCallsPerRotation st) (trackedWallets st) ws connected
    (tokenInfoCache st) (cacheExpiry st) (onTransactionReceived st) (effects st).

Definition set_tokenInfoCache (c : gmap string TokenInfo) (st : Backend) : Backend :=
  mkBackend (heliusApiKeys st) (currentApiKeyIndex st) (callsPerKey st)
    (maxCallsPerRotation st) (trackedWallets st) (websocket st) (isConnected st)
    c (cacheExpiry st) (onTransactionReceived st) (effects st).

(** *** API key rotation *)

Definition getCurrentApiKey (st : Backend) : option string :=
  heliusApiKeys st !! currentApiKeyIndex st.

(** [connect()]: nothing is opened while no wallet is tracked. *)
Definition connect (st : Backend) : Backend :=
  match trackedWallets st with
  | [] => set_connection (websocket st) false st
  | _ :: _ => emit (WsOpen (getCurrentApiKey st)) (set_connection true (isConnected st) st)
  end.

Definition reconnectWithNewApiKey (st : Backend) : Backend :=
  let st1 := if websocket st then emit (WsClose 1000 "API key rotation") st else st in
  emit (SetTimeout TaskConnect 1000) st1.

(** The statements shared by the two rotations: the index moves to the
    next key of the pool, the counter restarts, and an open connection is
    re-established.  (The pool is the constructor's and is never
    reassigned; on an empty pool JavaScript would yield NaN.) *)
Definition rotate (st : Backend) : Backend :=
  let st1 := set_key ((currentApiKeyIndex st + 1) mod length (heliusApiKeys st)) 0 st in
  if isConnected st1 then reconnectWithNewApiKey st1 else st1.

(** Run by the rotation timer. *)
Definition rotateApiKeyByTime (st : Backend) : Backend := rotate st.

(** Run before every outbound call. *)
Definition rotateApiKeyByUsage (st : Backend) : Backend :=
  let st1 := set_key (currentApiKeyIndex st) (callsPerKey st + 1) st in
  if (maxCallsPerRotation st1 <=? callsPerKey st1)%nat then rotate st1 else st1.

(** *** Token metadata cache *)

(** The test of [purgeExpiredCache] on one entry. *)
Definition expired (now : Z) (value : TokenInfo) : bool :=
  match ti_expiry value with
  | Some expiry => negb (expiry =? 0)%Z && (expiry <? now)%Z
  | None => false
  end.

(** [purgeExpiredCache()] run at time [now]. *)
Definition purgeExpiredCache (now : Z) (st : Backend) : Backend :=
  set_tokenInfoCache
    (filter (fun kv => expired now (snd kv) = false) (tokenInfoCache st)) st.

(** *** Enhanced transactions API *)

Definition fetchEnhancedTransactionDirect
    (signature : string) (response : EnhancedResponse) (st : Backend)
  : option EnhancedTx * Backend :=
  let st1 := rotateApiKeyByUsage st in
  let st2 := emit (HttpEnhancedTransaction (getCurrentApiKey st1) signature) st1 in
  match response with
  | EnhancedData (first :: _) => (first, st2)
  | _ => (None, st2)
  end.

(** [getEnhancedTransaction(signature)], through the queue. *)
Definition getEnhancedTransaction
    (signature : string) (response : EnhancedResponse) (st : Backend)
  : option EnhancedTx * Backend :=
  fetchEnhancedTransactionDirect signature response st.

(** *** Asset batch API *)

Definition placeholder : TokenInfo :=
  {| ti_symbol := "N/A"; ti_image := None; ti_expiry := None |}.

(** [a || b] on possibly missing strings. *)
Definition or_else (o : option string) (d : option string) : option string :=
  if truthy o then o else d.

(** The [tokenInfo] object built from the [content] of an upstream asset. *)
Definition tokenInfoOf (now ttl : Z) (content : AssetContent) : TokenInfo :=
  {| ti_symbol := match or_else (ac_symbol content) (Some "N/A") with
                  | Some s => s
                  | None => "N/A"
                  end;
     ti_image := or_else (ac_image content) None;
     ti_expiry := Some (now + ttl)%Z |}.

(** The body of the [forEach] that updates the cache from one entry of
    the upstream result. *)
Definition cacheAsset (now ttl : Z) (cache : gmap string TokenInfo) (asset : option Asset)
  : gmap string TokenInfo :=
  match asset with
  | Some a =>
      match asset_id a, asset_content a with
      | Some id, Some content =>
          if String.eqb id "" then cache
          else <[ id := tokenInfoOf now ttl content ]> cache
      | _, _ => cache
      end
  | None => cache
  end.

(** [fetchAssetInfoDirect(mintAddresses)]: [now] is the time at which the
    response is handled. *)
Definition fetchAssetInfoDirect
    (now : Z) (mintAddresses : list string) (response : BatchResponse) (st : Backend)
  : list TokenInfo * Backend :=
  let st1 := rotateApiKeyByUsage st in
  let st2 := emit (HttpAssetBatch (getCurrentApiKey st1) mintAddresses) st1 in
  match response with
  | BatchResult result =>
      let cache := fold_left (cacheAsset now (cacheExpiry st2)) result (tokenInfoCache st2) in
      (map (fun mint => match cache !! mint with
                        | Some cached => cached
                        | None => placeholder
                        end) mintAddresses,
       set_tokenInfoCache cache st2)
  | BatchNoResult | BatchError =>
      (map (fun _ => placeholder) mintAddresses, st2)
  end.

(** [getAssetInfo(mintAddresses)]: the cached entries when every address
    has one, otherwise the request goes through the queue. *)
Definition getAssetInfo
    (now : Z) (mintAddresses : list string) (response : BatchResponse) (st : Backend)
  : list TokenInfo * Backend :=
  let cachedInfo := omap (fun mint => tokenInfoCache st !! mint) mintAddresses in
  if (length cachedInfo =? length mintAddresses)%nat then (cachedInfo, st)
  else fetchAssetInfoDirect now mintAddresses response st.

(** *** Transaction processing *)

(** [set.add(x)] on a [Set] kept in insertion order. *)
Definition set_add (x : string) (s : list string) : list string :=
  if existsb (String.eqb x) s then s else s ++ [x].

(** [set.has(x)] / [array.includes(x)] for a possibly missing [x]. *)
Definition has (s : list string) (x : option string) : bool :=
  match x with
  | Some a => existsb (String.eqb a) s
  | None => false
  end.

Definition SOL_MINT : string := "So11111111111111111111111111111111111111112".

Definition extractMintAddresses (enhancedTx : EnhancedTx) : list string :=
  let fromTransfers :=
    match tx_tokenTransfers enhancedTx with
    | Some transfers =>
        fold_left (fun acc transfer =>
                     match tt_mint transfer with
                     | Some mint => if String.eqb mint "" then acc else set_add mint acc
                     | None => acc
                     end) transfers []
    | None => []
    end in
  match tx_accountData enhancedTx with
  | Some accounts =>
      fold_left (fun acc mint =>
                   match mint with
                   | Some mint => if String.eqb mint "" then acc else set_add mint acc
                   | None => acc
                   end) accounts fromTransfers
  | None => fromTransfers
  end.

(** [account === wallet || account?.includes(wallet)]. *)
Definition involves (account : option string) (wallet : string) : bool :=
  strict_eq account wallet ||
  match account with
  | Some a => includes a wallet
  | None => false
  end.

Definition determineBuySell
    (st : Backend) (transfer : TokenTransfer) (enhancedTx : EnhancedTx) : bool :=
  let isReceiving := existsb (involves (tt_toUserAccount transfer)) (trackedWallets st) in
  let isSending := existsb (involves (tt_fromUserAccount transfer)) (trackedWallets st) in
  if isReceiving && negb isSending then true
  else if isSending && negb isReceiving then false
  else if isSending && isReceiving
          && strict_eq (tx_type enhancedTx) "SWAP" then negb isSending
  else true.

(** The element pushed for one token transfer whose amount is present and
    not ['0']. *)
Definition tokenTransferAmount
    (st : Backend) (enhancedTx : EnhancedTx) (transfer : TokenTransfer) (tokenAmount : string)
  : TokenAmount :=
  let isSOLTransfer := strict_eq (tt_mint transfer) SOL_MINT in
  let isBuy := determineBuySell st transfer enhancedTx in
  let tradeType := if isBuy then BUY else SELL in
  let tradeType :=
    if isSOLTransfer then (if isBuy then SELL else BUY) else tradeType in
  let decimals :=
    match tt_tokenStandard transfer with
    | Some standard => if String.eqb standard "" then DecNumber 9 else DecString standard
    | None => DecNumber 9
    end in
  let humanAmount := formatTokenAmount (Some tokenAmount) decimals in
  let solAmount :=
    if isSOLTransfer then
      if includes tokenAmount "." then parseFloat tokenAmount
      else div (parseFloat tokenAmount) (of_Z 1000000000)
    else zero in
  {| ta_mint := tt_mint transfer;
     ta_rawAmount := inl tokenAmount;
     ta_decimals := Some decimals;
     ta_humanAmount := humanAmount;
     ta_solAmount := solAmount;
     ta_type := tradeType;
     ta_isSOL := isSOLTransfer;
     ta_fromUserAccount := tt_fromUserAccount transfer;
     ta_toUserAccount := tt_toUserAccount transfer |}.

(** Step 1 of [extractTokenAmounts]: the token transfers. *)
Definition extractTokenTransfers
    (st : Backend) (enhancedTx : EnhancedTx) (transfers : list TokenTransfer)
  : list TokenAmount :=
  omap (fun transfer =>
          match tt_tokenAmount transfer with
          | Some tokenAmount =>
              if negb (String.eqb tokenAmount "") && negb (String.eqb tokenAmount "0")
              then Some (tokenTransferAmount st enhancedTx transfer tokenAmount)
              else None
          | None => None
          end) transfers.

(** Step 2 of [extractTokenAmounts]: the element pushed for a native
    transfer, if its amount is not zero. *)
Definition nativeTransferAmount (transfer : NativeTransfer) : option TokenAmount :=
  let amount :=
    match nt_amount transfer with
    | Some a => if String.eqb a "" then zero else parseFloat a
    | None => zero
    end in
  let solAmount := div amount (of_Z 1000000000) in
  if neqb amount zero then
    Some {| ta_mint := Some SOL_MINT;
            ta_rawAmount := inr amount;
            ta_decimals := None;
            ta_humanAmount := formatSOLAmountDirect solAmount;
            ta_solAmount := solAmount;
            ta_type := if gtb amount zero then BUY else SELL;
            ta_isSOL := true;
            ta_fromUserAccount := nt_fromUserAccount transfer;
            ta_toUserAccount := nt_toUserAccount transfer |}
  else None.

Definition extractTokenAmounts (st : Backend) (enhancedTx : EnhancedTx) : list TokenAmount :=
  let tokenAmounts :=
    match tx_tokenTransfers enhancedTx with
    | Some transfers => extractTokenTransfers st enhancedTx transfers
    | None => []
    end in
  let hasSOLInTokenTransfers := existsb ta_isSOL tokenAmounts in
  match tx_nativeTransfers enhancedTx with
  | Some natives =>
      if negb hasSOLInTokenTransfers
      then tokenAmounts ++ omap nativeTransferAmount natives
      else tokenAmounts
  | None => tokenAmounts
  end.

(** *** Notification *)

Definition notifyTransaction (transactionData : TransactionData) (st : Backend) : Backend :=
  if onTransactionReceived st then emit (Notify transactionData) st else st.

Definition fallbackTransactionData (now : Z) (signature : string) : TransactionData :=
  {| td_signature := signature;
     td_wallet := Some "Transaction Detected";
     td_token := Some "Unknown";
     td_amount := "N/A SOL";
     td_buySell := None;
     td_solAmount := None;
     td_type := Some "basic_transaction";
     td_mintAddress := None;
     td_timestamp := now |}.

(** [handleFallbackTransaction(logs)], on [logs.value?.signature]. *)
Definition handleFallbackTransaction (now : Z) (signature : option string) (st : Backend)
  : Backend :=
  match signature with
  | Some sig =>
      if String.eqb sig "" then st
      else notifyTransaction (fallbackTransactionData now sig) st
  | None => st
  end.

(** *** Steps 5 to 8 of [processTransactionUpdate] *)

(** The test under which [assetInfoArray[i]] enters [validNonSOLTokens]. *)
Definition isValidNonSOLToken (mintAddresses : list string) (i : nat) (asset : TokenInfo)
  : bool :=
  if negb (String.eqb (ti_symbol asset) "") then
    let symbol := trim (ti_symbol asset) in
    if negb (String.eqb symbol "SOL") && negb (String.eqb symbol "WSOL")
       && negb (String.eqb symbol "wSOL") && negb (String.eqb symbol "Unknown")
       && negb (String.eqb symbol "N/A") && negb (String.eqb symbol "")
       && (2 <=? String.length symbol)%nat
    then
      match mintAddresses !! i with
      | Some mintAddr => negb (String.eqb mintAddr "") && negb (String.eqb mintAddr SOL_MINT)
      | None => false
      end
    else false
  else false.

(** The first element of [validNonSOLTokens], searched from index [i]. *)
Fixpoint firstValidNonSOLToken (mintAddresses : list string) (i : nat)
    (assetInfoArray : list TokenInfo) : option TokenInfo :=
  match assetInfoArray with
  | [] => None
  | asset :: rest =>
      if isValidNonSOLToken mintAddresses i asset then Some asset
      else firstValidNonSOLToken mintAddresses (S i) rest
  end.

(** The [reduce] that picks the SOL transfer of largest magnitude. *)
Definition largestOf (first : TokenAmount) (rest : list TokenAmount) : TokenAmount :=
  fold_left (fun max current =>
               if gtb (abs (ta_solAmount current)) (abs (ta_solAmount max))
               then current else max) rest first.

(** The variables set by the SOL analysis. *)
Record SolAnalysis := mkSolAnalysis {
  totalSOLAmount : number;
  isUserBuying : bool;
  userInvolvedInTransaction : bool;
  actualWalletInvolved : option string
}.

(** Direction and amount from the main transfer alone. *)
Definition analyseMainTransfer (st : Backend) (largestSOLTransfer : TokenAmount)
  : SolAnalysis :=
  let from := ta_fromUserAccount largestSOLTransfer in
  let to := ta_toUserAccount largestSOLTransfer in
  let fromUserIsTracked := truthy from && has (trackedWallets st) from in
  let toUserIsTracked := truthy to && has (trackedWallets st) to in
  if fromUserIsTracked || toUserIsTracked then
    let total := abs (ta_solAmount largestSOLTransfer) in
    if toUserIsTracked && negb fromUserIsTracked then mkSolAnalysis total false true to
    else if fromUserIsTracked && negb toUserIsTracked then mkSolAnalysis total true true from
    else mkSolAnalysis total false true None
  else mkSolAnalysis zero false false None.

(** The fallback that sums every SOL transfer. *)
Definition analyseAllTransfers (st : Backend) (solTransfers : list TokenAmount)
  : SolAnalysis :=
  let '(total, userSendingSOL, userReceivingSOL) :=
    fold_left (fun '(total, sending, receiving) transfer =>
                 let amount := abs (ta_solAmount transfer) in
                 (add total amount,
                  if has (trackedWallets st) (ta_fromUserAccount transfer)
                  then add sending amount else sending,
                  if has (trackedWallets st) (ta_toUserAccount transfer)
                  then add receiving amount else receiving))
              solTransfers (zero, zero, zero) in
  mkSolAnalysis total (gtb userSendingSOL userReceivingSOL) true None.

Definition analyseSOL (st : Backend) (first : TokenAmount) (rest : list TokenAmount)
  : SolAnalysis :=
  let main := analyseMainTransfer st (largestOf first rest) in
  if negb (userInvolvedInTransaction main) then analyseAllTransfers st (first :: rest)
  else main.

(** Steps 5 to 8: primary token, direction and amount, event, filter. *)
Definition classifyAndNotify
    (now : Z) (signature : string) (enhancedTx : EnhancedTx)
    (mintAddresses : list string) (assetInfoArray : list TokenInfo) (st : Backend)
  : Backend :=
  let tokenAmounts := extractTokenAmounts st enhancedTx in
  match firstValidNonSOLToken mintAddresses 0 assetInfoArray with
  | None => st
  | Some primaryToken =>
      let build (amountText buySellType : string) (total : number) (actual : option string) :=
        {| td_signature := signature;
           td_wallet := if truthy actual then actual else head (trackedWallets st);
           td_token := Some (ti_symbol primaryToken);
           td_amount := amountText;
           td_buySell := Some buySellType;
           td_solAmount := Some total;
           td_type := Some "enhanced_transaction";
           td_mintAddress := None;
           td_timestamp := now |} in
      let finish (transactionData : TransactionData) :=
        if TransactionFilters.shouldShowTransaction (Some transactionData)
        then notifyTransaction transactionData st
        else st in
      match List.filter ta_isSOL tokenAmounts with
      | first :: rest =>
          let a := analyseSOL st first rest in
          if ltb (totalSOLAmount a) (of_decimal 1 (-3)) then st
          else if userInvolvedInTransaction a then
            let buySellType := if isUserBuying a then "BUY" else "SELL" in
            let buySellIndicator := if isUserBuying a then "🟢" else "🔴" in
            let solAmount := formatSOLAmountDirect (totalSOLAmount a) in
            finish (build (buySellIndicator +:+ " " +:+ solAmount) buySellType
                          (totalSOLAmount a) (actualWalletInvolved a))
          else st
      | [] =>
          let amountText :=
            match tokenAmounts with
            | mainTransfer :: _ =>
                let humanAmount := ta_humanAmount mainTransfer in
                formatTokenAmount
                  (Some (if String.eqb humanAmount "" then "0" else humanAmount))
                  (DecNumber 9)
            | [] => "N/A"
            end in
          finish (build amountText "UNKNOWN" zero None)
      end
  end.

(** [processTransactionUpdate(data)] for one frame, with what the two
    upstream requests come back with.  A missing [enhancedTx.type] makes
    [toLowerCase] throw; the [catch] then runs the fallback. *)
Definition processTransactionUpdate
    (now : Z) (data : Frame) (enhanced : EnhancedResponse) (batch : BatchResponse)
    (st : Backend) : Backend :=
  if strict_eq (fr_method data) "logsNotification" then
    match trackedWallets st with
    | [] => st
    | _ :: _ =>
        match fr_signature data with
        | None => st
        | Some signature =>
            if String.eqb signature "" then st
            else
              let (enhancedTx, st1) := getEnhancedTransaction signature enhanced st in
              match enhancedTx with
              | None => handleFallbackTransaction now (fr_signature data) st1
              | Some tx =>
                  match tx_type tx with
                  | None => handleFallbackTransaction now (fr_signature data) st1
                  | Some type =>
                      if negb (String.eqb type "SWAP")
                         && negb (includes (toLowerCase type) "swap")
                      then st1
                      else
                        match extractMintAddresses tx with
                        | [] => st1
                        | mintAddresses =>
                            let (assetInfoArray, st2) :=
                              getAssetInfo now mintAddresses batch st1 in
                            classifyAndNotify now signature tx mintAddresses
                                              assetInfoArray st2
                        end
                  end
              end
        end
    end
  else st.

(** *** Wallet management *)

(** The character class of the address pattern. *)
Definition base58_ranges : list (ascii * ascii) :=
  [ ("1", "9"); ("A", "H"); ("J", "N"); ("P", "Z"); ("a", "k"); ("m", "z") ]%char.

Definition in_class (ranges : list (ascii * ascii)) (c : ascii) : bool :=
  existsb (fun r => in_range (fst r) (snd r) c) ranges.

(** [/^[1-9A-HJ-NP-Za-km-z]{32,44}$/.test(address)]. *)
Definition validateWalletAddress (address : string) : bool :=
  let n := String.length address in
  (32 <=? n)%nat && (n <=? 44)%nat
  && forallb (in_class base58_ranges) (list_ascii_of_string address).

(** [subscribeToWallet(walletAddress)]: the [logsSubscribe] request sent
    on the socket. *)
Definition subscribeToWallet (walletAddress : string) (st : Backend) : Backend :=
  emit (WsSend walletAddress) st.

Definition addWallet (walletAddress : string) (st : Backend) : bool * Backend :=
  if validateWalletAddress walletAddress then
    let wasEmpty := match trackedWallets st with [] => true | _ => false end in
    let st1 := set_trackedWallets (set_add walletAddress (trackedWallets st)) st in
    let st2 :=
      if wasEmpty && negb (isConnected st1) then connect st1
      else if isConnected st1 then subscribeToWallet walletAddress st1
      else st1 in
    (true, st2)
  else (false, st).

End Helius.

(** ** Notions used by the statements *)

(** The events handed to the notification callback, in order. *)
Definition notified (es : list Effect) : list TransactionData :=
  omap (fun e => match e with Notify td => Some td | _ => None end) es.

(** The [ids] of the asset-batch requests sent upstream, in order. *)
Definition assetBatchRequests (es : list Effect) : list (list string) :=
  omap (fun e => match e with HttpAssetBatch _ ids => Some ids | _ => None end) es.

(** The address pattern written out: 32 to 44 characters, each one of the
    58 characters of the Base58 alphabet. *)
Definition Base58Alphabet : string :=
  "123456789ABCDEFGHJKLMNPQRSTUVWXYZabcdefghijkmnopqrstuvwxyz".

Definition matchesBase58Pattern (address : string) : Prop :=
  (32 <= String.length address <= 44)%nat /\
  Forall (fun c => In c (list_ascii_of_string Base58Alphabet))
         (list_ascii_of_string address).


(** The index designates a key of the pool. *)
Definition rotorOk (st : Backend) : Prop :=
  (currentApiKeyIndex st < length (heliusApiKeys st))%nat.


(** From [st] to [st'] the callback was handed nothing but events that
    [shouldShowTransaction] admits. *)
Definition admittedOnly (st st' : Backend) : Prop :=
  exists new,
    notified (effects st') = (notified (effects st) ++ new)%list /\
    Forall (fun td => TransactionFilters.shouldShowTransaction (Some td) = true) new.

(** The direction named by the boolean of [determineBuySell]. *)
Definition directionOf (isBuy : bool) : TradeType := if isBuy then BUY else SELL.

Definition opposite (t : TradeType) : TradeType :=
  match t with BUY => SELL | SELL => BUY end.

(** ** Example data *)

(** A backend with a handler registered that tracks one wallet. *)
Definition watching (wallet : string) : Backend :=
  mkBackend (heliusApiKeys Helius.constructor) 0 0 100 [wallet] true true
            ∅ (5 * 60 * 1000) true [].

(** An upstream asset with the given id and symbol. *)
Definition assetOf (id symbol : string) : option Asset :=
  Some (mkAsset (Some id) (Some (mkAssetContent (Some symbol) None))).

(** The cache after the metadata of [MintA] and [MintB] has been fetched
    at time 0. *)
Definition twoCached : Backend :=
  snd (Helius.fetchAssetInfoDirect 0 ["MintA"; "MintB"]
         (BatchResult [assetOf "MintA" "AAA"; assetOf "MintB" "BBB"])
         Helius.constructor).

(** ** The rest of the backend *)

Module HeliusRest.
Import JsString JsNumber Format Helius.

(** *** Formatting and direction of native transfers *)

(** [formatSOLAmount(lamports)] on the string form of the amount. *)
Definition formatSOLAmount (lamports : string) : string :=
  let solAmount := div (parseFloat lamports) (of_Z 1000000000) in
  if geb solAmount (of_Z 1000) then
    toFixed (div solAmount (of_Z 1000)) 2 +:+ "K SOL"
  else if geb solAmount (of_Z 1) then
    toFixed solAmount 3 +:+ " SOL"
  else if geb solAmount (of_decimal 1 (-3)) then
    toFixed solAmount 4 +:+ " SOL"
  else
    toFixed solAmount 6 +:+ " SOL".

Definition determineBuySellNative (st : Backend) (nativeTransfer : NativeTransfer) : bool :=
  let isReceiving := existsb (involves (nt_toUserAccount nativeTransfer)) (trackedWallets st) in
  let isSending := existsb (involves (nt_fromUserAccount nativeTransfer)) (trackedWallets st) in
  if isReceiving && negb isSending then false
  else if isSending && negb isReceiving then true
  else true.

(** *** Subscriptions and wallet removal *)

(** [subscribeToTrackedWallets()]: one subscription per wallet of the set,
    in its order. *)
Definition subscribeToTrackedWallets (st : Backend) : Backend :=
  match trackedWallets st with
  | [] => st
  | wallets => fold_left (fun s wallet => subscribeToWallet wallet s) wallets st
  end.

(** [set.delete(x)] on a [Set] kept in insertion order. *)
Definition set_remove (x : string) (s : list string) : list string :=
  List.filter (fun y => negb (String.eqb x y)) s.

(** The callback that [removeWallet] hands to [setTimeout] when wallets
    remain: it puts back the set captured at removal time and connects. *)
Definition restoreAndConnect (remainingWallets : list string) (st : Backend) : Backend :=
  connect (set_trackedWallets remainingWallets st).

(** [removeWallet(walletAddress)]: the value returned, the backend, and the
    set captured by the timer of 1000 ms when one is set.  (Emptying the
    two request queues, which the model leaves out, is not represented.) *)
Definition removeWallet (walletAddress : string) (st : Backend)
  : bool * Backend * option (list string) :=
  if has (trackedWallets st) (Some walletAddress) then
    let st1 := set_trackedWallets (set_remove walletAddress (trackedWallets st)) st in
    match trackedWallets st1 with
    | [] =>
        if websocket st1 then
          (true,
           set_connection false false (emit (WsClose 1000 "No wallets to track") st1),
           None)
        else (true, st1, None)
    | _ :: _ =>
        if websocket st1 then
          (true, emit (WsClose 1000 "Updating subscriptions") st1,
           Some (trackedWallets st1))
        else (true, st1, None)
    end
  else (false, st, None).

(** *** Socket events and reconnection *)

(** The backend with the three fields of the reconnection logic. *)
Record Connection := mkConnection {
  conn_backend : Backend;
  reconnectAttempts : nat;
  maxReconnectAttempts : nat;
  reconnectDelay : Z
}.

(** The connection state left by the constructor. *)
Definition newConnection : Connection :=
  {| conn_backend := constructor;
     reconnectAttempts := 0;
     maxReconnectAttempts := 5;
     reconnectDelay := 1000 |}.

Definition handleReconnect (c : Connection) : Connection :=
  if (maxReconnectAttempts c <=? reconnectAttempts c)%nat then c
  else
    {| conn_backend := emit (SetTimeout TaskConnect (reconnectDelay c)) (conn_backend c);
       reconnectAttempts := reconnectAttempts c + 1;
       maxReconnectAttempts := maxReconnectAttempts c;
       reconnectDelay := Z.min (reconnectDelay c * 2) 30000 |}.

(** The [onopen] handler. *)
Definition onopen (c : Connection) : Connection :=
  let st := set_connection (websocket (conn_backend c)) true (conn_backend c) in
  {| conn_backend := subscribeToTrackedWallets st;
     reconnectAttempts := 0;
     maxReconnectAttempts := maxReconnectAttempts c;
     reconnectDelay := reconnectDelay c |}.

(** The [onclose] handler, on [event.wasClean]. *)
Definition onclose (wasClean : bool) (c : Connection) : Connection :=
  let c1 :=
    {| conn_backend := set_connection (websocket (conn_backend c)) false (conn_backend c);
       reconnectAttempts := reconnectAttempts c;
       maxReconnectAttempts := maxReconnectAttempts c;
       reconnectDelay := reconnectDelay c |} in
  if negb wasClean then handleReconnect c1 else c1.

(** *** The rate-limited request queues *)

(** The timers set by the two queue processors. *)
Inductive QueueTimer :=
| ProcessEnhancedTransactionQueue
| ProcessAssetBatchQueue.

(** The backend with its two request queues.  A queued request stands for
    the pair of the argument and the [resolve] function of its promise;
    what a promise is resolved with is returned by the processor. *)
Record Queued := mkQueued {
  q_backend : Backend;
  enhancedTransactionQueue : list string;
  assetBatchQueue : list (list string);
  lastEnhancedCall : Z;
  lastAssetBatchCall : Z;
  rateLimitDelay : Z;
  queueTimers : list (QueueTimer * Z)
}.

(** The queues left by the constructor. *)
Definition newQueued : Queued :=
  {| q_backend := constructor;
     enhancedTransactionQueue := [];
     assetBatchQueue := [];
     lastEnhancedCall := 0;
     lastAssetBatchCall := 0;
     rateLimitDelay := 1200;
     queueTimers := [] |}.

Definition setQueueTimer (t : QueueTimer) (delay : Z) (q : Queued) : Queued :=
  mkQueued (q_backend q) (enhancedTransactionQueue q) (assetBatchQueue q)
           (lastEnhancedCall q) (lastAssetBatchCall q) (rateLimitDelay q)
           (queueTimers q ++ [(t, delay)]).

(** [processEnhancedTransactionQueue()] called at time [now]; the awaited
    request comes back with [response].  Returns the request resolved, with
    its result, if one was served. *)
Definition processEnhancedTransactionQueue
    (now : Z) (response : EnhancedResponse) (q : Queued)
  : option (string * option EnhancedTx) * Queued :=
  match enhancedTransactionQueue q with
  | [] => (None, q)
  | signature :: rest =>
      let timeSinceLastCall := (now - lastEnhancedCall q)%Z in
      if (timeSinceLastCall <? rateLimitDelay q)%Z then
        (None, setQueueTimer ProcessEnhancedTransactionQueue
                 (rateLimitDelay q - timeSinceLastCall) q)
      else
        let (result, st) := fetchEnhancedTransactionDirect signature response (q_backend q) in
        let q1 := mkQueued st rest (assetBatchQueue q) now (lastAssetBatchCall q)
                           (rateLimitDelay q) (queueTimers q) in
        (Some (signature, result),
         match rest with
         | [] => q1
         | _ :: _ => setQueueTimer ProcessEnhancedTransactionQueue (rateLimitDelay q) q1
         end)
  end.

(** [getEnhancedTransaction(signature)]: the request is queued and the
    queue processed. *)
Definition getEnhancedTransactionQueued
    (now : Z) (signature : string) (response : EnhancedResponse) (q : Queued)
  : option (string * option EnhancedTx) * Queued :=
  processEnhancedTransactionQueue now response
    (mkQueued (q_backend q) (enhancedTransactionQueue q ++ [signature]) (assetBatchQueue q)
              (lastEnhancedCall q) (lastAssetBatchCall q) (rateLimitDelay q)
              (queueTimers q)).

(** [processAssetBatchQueue()] called at time [now]; the response is
    handled at time [responseTime]. *)
Definition processAssetBatchQueue
    (now responseTime : Z) (response : BatchResponse) (q : Queued)
  : option (list string * list TokenInfo) * Queued :=
  match assetBatchQueue q with
  | [] => (None, q)
  | mintAddresses :: rest =>
      let timeSinceLastCall := (now - lastAssetBatchCall q)%Z in
      if (timeSinceLastCall <? rateLimitDelay q)%Z then
        (None, setQueueTimer ProcessAssetBatchQueue
                 (rateLimitDelay q - timeSinceLastCall) q)
      else
        let (result, st) :=
          fetchAssetInfoDirect responseTime mintAddresses response (q_backend q) in
        let q1 := mkQueued st (enhancedTransactionQueue q) rest (lastEnhancedCall q) now
                           (rateLimitDelay q) (queueTimers q) in
        (Some (mintAddresses, result),
         match rest with
         | [] => q1
         | _ :: _ => setQueueTimer ProcessAssetBatchQueue (rateLimitDelay q) q1
         end)
  end.

(** What [getAssetInfo] answers at once, if it does. *)
Inductive AssetInfoPromise :=
| FromCache (cachedInfo : list TokenInfo)
| Pending (served : option (list string * list TokenInfo)).

(** [getAssetInfo(mintAddresses)] with the queue: the cached entries when
    every address has one, otherwise the request is queued and the queue
    processed. *)
Definition getAssetInfoQueued
    (now responseTime : Z) (mintAddresses : list string) (response : BatchResponse)
    (q : Queued) : AssetInfoPromise * Queued :=
  let cachedInfo := omap (fun mint => tokenInfoCache (q_backend q) !! mint) mintAddresses in
  if (length cachedInfo =? length mintAddresses)%nat then (FromCache cachedInfo, q)
  else
    let (served, q') :=
      processAssetBatchQueue now responseTime response
        (mkQueued (q_backend q) (enhancedTransactionQueue q)
                  (assetBatchQueue q ++ [mintAddresses])
                  (lastEnhancedCall q) (lastAssetBatchCall q) (rateLimitDelay q)
                  (queueTimers q)) in
    (Pending served, q').

End HeliusRest.

(** ** Further notions *)

(** The signatures of the transaction-detail requests sent upstream. *)
Definition enhancedRequests (es : list Effect) : list string :=
  omap (fun e => match e with HttpEnhancedTransaction _ sig => Some sig | _ => None end) es.

(** The wallets of the subscriptions sent on the socket. *)
Definition subscriptions (es : list Effect) : list string :=
  omap (fun e => match e with WsSend wallet => Some wallet | _ => None end) es.

(** The connection states gone through from the constructor under the
    socket events. *)
Inductive connectionReachable : HeliusRest.Connection -> Prop :=
| conn_new : connectionReachable HeliusRest.newConnection
| conn_open c : connectionReachable c -> connectionReachable (HeliusRest.onopen c)
| conn_close c wasClean :
    connectionReachable c -> connectionReachable (HeliusRest.onclose wasClean c)
| conn_retry c : connectionReachable c -> connectionReachable (HeliusRest.handleReconnect c).

(** [k] runs of a method. *)
Fixpoint repeatedly (k : nat) (f : Backend -> Backend) (st : Backend) : Backend :=
  match k with
  | O => st
  | S k' => repeatedly k' f (f st)
  end.

(** * Properties *)

Section Filter.
Import JsString TransactionFilters.

(** C8. A candidate event whose token symbol is not a reference-asset
    symbol ('SOL', 'WSOL'), has at least two characters and is not on the
    token blacklist is admitted by [shouldShowTransaction], whatever its
    wallet label, its transaction type and its mint address are. *)
Theorem shouldShowTransaction_valid_token_admitted
    (td : TransactionData) (token : string) :
  td_token td = Some token ->
  token <> "SOL" -> token <> "WSOL" ->
  (2 <= String.length token)%nat ->
  isTokenBlacklisted (Some token) = false ->
  shouldShowTransaction (Some td) = true.
Proof.
  intros Htok Hsol Hwsol Hlen Hbl.
  unfold shouldShowTransaction. rewrite Htok, Hbl.
  assert (Htruthy : truthy (Some token) = true).
  { unfold isTokenBlacklisted in Hbl.
    destruct (truthy (Some token)); [reflexivity | discriminate]. }
  rewrite Htruthy. simpl strict_eq.
  apply String.eqb_neq in Hsol, Hwsol. rewrite Hsol, Hwsol.
  apply Nat.leb_le in Hlen. rewrite Hlen. reflexivity.
Qed.

(** An event with a generic wallet label, a blacklisted type and no mint
    address, admitted for its token. *)
Lemma shouldShowTransaction_valid_token_admitted_witness :
  shouldShowTransaction
    (Some {| td_signature := "5sig"; td_wallet := Some "Transaction Detected";
             td_token := Some "FOO"; td_amount := "N/A SOL"; td_buySell := None;
             td_solAmount := None; td_type := Some "account_change";
             td_mintAddress := None; td_timestamp := 0 |}) = true.
Proof.
  apply (shouldShowTransaction_valid_token_admitted _ "FOO");
    [ reflexivity | discriminate | discriminate | simpl; lia | reflexivity ].
Defined.

End Filter.

Section Wallets.
Import JsString Helius.

Lemma in_class_alphabet (c : ascii) :
  in_class base58_ranges c = existsb (Ascii.eqb c) (list_ascii_of_string Base58Alphabet).
Proof.
  destruct c as [b0 b1 b2 b3 b4 b5 b6 b7].
  destruct b0, b1, b2, b3, b4, b5, b6, b7; vm_compute; reflexivity.
Qed.

Lemma in_class_In (c : ascii) :
  in_class base58_ranges c = true <-> In c (list_ascii_of_string Base58Alphabet).
Proof.
  rewrite in_class_alphabet, existsb_exists. split.
  - intros [x [Hin Heq]]. apply Ascii.eqb_eq in Heq. now subst.
  - intros Hin. exists c. split; [assumption | apply Ascii.eqb_refl].
Qed.

Lemma validateWalletAddress_pattern (address : string) :
  validateWalletAddress address = true <-> matchesBase58Pattern address.
Proof.
  unfold validateWalletAddress, matchesBase58Pattern.
  rewrite !andb_true_iff, !Nat.leb_le, forallb_forall, List.Forall_forall.
  split.
  - intros [[Hlo Hhi] Hall]. split; [lia |].
    intros c Hc. apply in_class_In, Hall, Hc.
  - intros [[Hlo Hhi] Hall]. repeat split; try lia.
    intros c Hc. apply in_class_In, Hall, Hc.
Qed.

Lemma set_add_In (x : string) (s : list string) : In x (set_add x s).
Proof.
  unfold set_add. destruct (existsb (String.eqb x) s) eqn:E.
  - apply existsb_exists in E as [y [Hin Heq]].
    apply String.eqb_eq in Heq. now subst.
  - apply in_or_app. right. now left.
Qed.

Lemma set_add_keeps (x y : string) (s : list string) : In y s -> In y (set_add x s).
Proof.
  unfold set_add. destruct (existsb (String.eqb x) s); [easy |].
  intros H. apply in_or_app. now left.
Qed.

Lemma addWallet_trackedWallets (walletAddress : string) (st : Backend) :
  validateWalletAddress walletAddress = true ->
  trackedWallets (snd (addWallet walletAddress st))
  = set_add walletAddress (trackedWallets st).
Proof.
  intros Hv. unfold addWallet. rewrite Hv. cbn [snd].
  destruct (trackedWallets st) eqn:Hw; cbn [set_trackedWallets isConnected];
    destruct (isConnected st); reflexivity.
Qed.

(** C10. For every string [address], [addWallet(address)] returns true
    exactly when the address matches the Base58 pattern
    [^[1-9A-HJ-NP-Za-km-z]{32,44}$]; when it returns true the address is in
    the tracked-wallet set (beside the wallets tracked before), and when
    it returns false the backend, and so the tracked-wallet set, is
    unchanged. *)
Theorem addWallet_accepts_exactly_base58 (address : string) (st : Backend) :
  (fst (addWallet address st) = true <-> matchesBase58Pattern address) /\
  (fst (addWallet address st) = true ->
     In address (trackedWallets (snd (addWallet address st))) /\
     forall w, In w (trackedWallets st) ->
               In w (trackedWallets (snd (addWallet address st)))) /\
  (fst (addWallet address st) = false ->
     snd (addWallet address st) = st).
Proof.
  rewrite <- validateWalletAddress_pattern.
  destruct (validateWalletAddress address) eqn:Hv.
  - pose proof (addWallet_trackedWallets address st Hv) as Htw.
    unfold addWallet in *. rewrite Hv in *. cbn [fst] in *.
    split; [tauto |]. split; [| discriminate].
    intros _. rewrite Htw. split.
    + apply set_add_In.
    + intros w Hw. now apply set_add_keeps.
  - unfold addWallet. rewrite Hv. cbn. split; [tauto |].
    split; [discriminate | reflexivity].
Qed.

(** A 44-character Base58 address is accepted and tracked; an address with
    the excluded character '0' is refused and nothing changes. *)
Lemma addWallet_accepts_exactly_base58_witness :
  let good := "7xKXtg2CW87d97TXJSDpbD5jBkheTqA83TZRuJosgAsU" in
  let bad := "0xKXtg2CW87d97TXJSDpbD5jBkheTqA83TZRuJosgAsU" in
  In good (trackedWallets (snd (addWallet good constructor))) /\
  snd (addWallet bad constructor) = constructor.
Proof.
  intros good bad. split.
  - destruct (addWallet_accepts_exactly_base58 good constructor) as (_ & Hadded & _).
    destruct Hadded as [Hin _]; [reflexivity | exact Hin].
  - destruct (addWallet_accepts_exactly_base58 bad constructor) as (_ & _ & Hrefused).
    apply Hrefused. reflexivity.
Defined.

End Wallets.

Section Rotation.
Import Helius.


Lemma rotate_index (st : Backend) :
  heliusApiKeys (rotate st) = heliusApiKeys st /\
  currentApiKeyIndex (rotate st)
  = ((currentApiKeyIndex st + 1) mod length (heliusApiKeys st))%nat /\
  callsPerKey (rotate st) = 0%nat.
Proof.
  unfold rotate, reconnectWithNewApiKey. cbn [isConnected set_key websocket].
  destruct (isConnected st); [destruct (websocket st) |]; cbn; auto.
Qed.














End Rotation.

Section Cache.
Import Helius.

Lemma rotate_keeps (st : Backend) :
  tokenInfoCache (rotate st) = tokenInfoCache st /\
  cacheExpiry (rotate st) = cacheExpiry st /\
  trackedWallets (rotate st) = trackedWallets st /\
  onTransactionReceived (rotate st) = onTransactionReceived st /\
  notified (effects (rotate st)) = notified (effects st) /\
  assetBatchRequests (effects (rotate st)) = assetBatchRequests (effects st).
Proof.
  unfold rotate, reconnectWithNewApiKey, notified, assetBatchRequests.
  cbn [isConnected set_key websocket].
  destruct (isConnected st); [destruct (websocket st) |]; cbn;
    rewrite ?omap_app; cbn; rewrite ?app_nil_r; auto 10.
Qed.

Lemma rotateApiKeyByUsage_keeps (st : Backend) :
  tokenInfoCache (rotateApiKeyByUsage st) = tokenInfoCache st /\
  cacheExpiry (rotateApiKeyByUsage st) = cacheExpiry st /\
  trackedWallets (rotateApiKeyByUsage st) = trackedWallets st /\
  onTransactionReceived (rotateApiKeyByUsage st) = onTransactionReceived st /\
  notified (effects (rotateApiKeyByUsage st)) = notified (effects st) /\
  assetBatchRequests (effects (rotateApiKeyByUsage st)) = assetBatchRequests (effects st).
Proof.
  unfold rotateApiKeyByUsage.
  destruct (_ <=? _)%nat; [| cbn; auto 10].
  apply (rotate_keeps (set_key (currentApiKeyIndex st) (callsPerKey st + 1) st)).
Qed.

(** The sweep keeps exactly the entries that are not expired. *)
Lemma purgeExpiredCache_lookup (now : Z) (st : Backend) (id : string) :
  tokenInfoCache (purgeExpiredCache now st) !! id
  = match tokenInfoCache st !! id with
    | Some value => if expired now value then None else Some value
    | None => None
    end.
Proof.
  unfold purgeExpiredCache. cbn [tokenInfoCache set_tokenInfoCache].
  destruct (tokenInfoCache st !! id) as [value |] eqn:Hl.
  - destruct (expired now value) eqn:He.
    + apply map_lookup_filter_None. right. intros x Hx. cbn.
      rewrite Hl in Hx. injection Hx as <-. rewrite He. discriminate.
    + apply map_lookup_filter_Some. split; [exact Hl | exact He].
  - apply map_lookup_filter_None. left. exact Hl.
Qed.

Lemma omap_length_le {A B} (f : A -> option B) (l : list A) :
  (length (omap f l) <= length l)%nat.
Proof. induction l as [| a l IH]; cbn; [lia |]. destruct (f a); cbn; lia. Qed.

Lemma omap_all_Some {A B} (f : A -> option B) (l : list A) :
  length (omap f l) = length l <-> Forall (fun a => is_Some (f a)) l.
Proof.
  induction l as [| a l IH]; cbn.
  - split; [constructor | reflexivity].
  - destruct (f a) as [b |] eqn:Hf; cbn.
    + split.
      * intros H. constructor; [rewrite Hf; eauto | apply IH; lia].
      * intros H. inversion H; subst. f_equal. now apply IH.
    + split.
      * intros H. pose proof (omap_length_le f l). lia.
      * intros H. inversion H as [| ? ? [b Hb] ?]; subst. congruence.
Qed.

Lemma omap_all_Some_lookup {A B} (f : A -> option B) (l : list A) :
  Forall (fun a => is_Some (f a)) l ->
  forall i a, l !! i = Some a -> omap f l !! i = f a.
Proof.
  induction 1 as [| x l [b Hb] _ IH]; intros i a Hi.
  - discriminate.
  - cbn. rewrite Hb. destruct i as [| i]; cbn in *.
    + injection Hi as <-. now rewrite Hb.
    + now apply IH.
Qed.

Lemma fetchAssetInfoDirect_length now mints response st :
  length (fst (fetchAssetInfoDirect now mints response st)) = length mints.
Proof.
  unfold fetchAssetInfoDirect. destruct response; cbn [fst]; apply length_map.
Qed.

Lemma fetchAssetInfoDirect_requests now mints response st :
  assetBatchRequests (effects (snd (fetchAssetInfoDirect now mints response st)))
  = (assetBatchRequests (effects st) ++ [mints])%list.
Proof.
  destruct (rotateApiKeyByUsage_keeps st) as (_ & _ & _ & _ & _ & Hr).
  unfold fetchAssetInfoDirect.
  destruct response; cbn [snd effects set_tokenInfoCache emit];
    unfold assetBatchRequests in *; rewrite omap_app, Hr; reflexivity.
Qed.

Lemma fetchAssetInfoDirect_cache now mints response st :
  tokenInfoCache (snd (fetchAssetInfoDirect now mints response st))
  = match response with
    | BatchResult result =>
        fold_left (cacheAsset now (cacheExpiry st)) result (tokenInfoCache st)
    | _ => tokenInfoCache st
    end.
Proof.
  destruct (rotateApiKeyByUsage_keeps st) as (Hc & Ht & _).
  unfold fetchAssetInfoDirect.
  destruct response; cbn [snd tokenInfoCache cacheExpiry set_tokenInfoCache emit];
    rewrite ?Hc, ?Ht; reflexivity.
Qed.

Lemma fetchAssetInfoDirect_entry now mints response st i mint :
  mints !! i = Some mint ->
  fst (fetchAssetInfoDirect now mints response st) !! i
  = Some match response with
         | BatchResult _ =>
             match tokenInfoCache (snd (fetchAssetInfoDirect now mints response st)) !! mint with
             | Some cached => cached
             | None => placeholder
             end
         | _ => placeholder
         end.
Proof.
  intros Hi. unfold fetchAssetInfoDirect.
  destruct response; cbn [fst snd tokenInfoCache set_tokenInfoCache];
    rewrite list_lookup_fmap, Hi; reflexivity.
Qed.

(** After the [forEach], an entry of the cache is either an older one or
    the [tokenInfo] of an asset of the result. *)
Lemma cacheAsset_fold_written now ttl (result : list (option Asset)) cache asset id content :
  In (Some asset) result ->
  asset_id asset = Some id -> id <> "" -> asset_content asset = Some content ->
  exists content',
    In (Some (mkAsset (Some id) (Some content'))) result /\
    fold_left (cacheAsset now ttl) result cache !! id = Some (tokenInfoOf now ttl content').
Proof.
  intros Hin Hid Hne Hcontent. revert Hin.
  induction result as [| a result IH] using rev_ind; [intros [] |].
  intros Hin. rewrite fold_left_app. cbn [fold_left].
  assert (Hkeep : forall c', In (Some (mkAsset (Some id) (Some c'))) result ->
                             In (Some (mkAsset (Some id) (Some c'))) (result ++ [a])).
  { intros c' H. apply in_or_app. now left. }
  destruct a as [[aid acontent] |]; cbn [cacheAsset asset_id asset_content].
  - destruct aid as [aid |]; [destruct acontent as [acontent |] |].
    + destruct (String.eqb aid "") eqn:Hempty.
      * apply in_app_or in Hin as [Hin | [Heq | []]].
        -- destruct (IH Hin) as (c' & Hc' & Hl). eauto.
        -- injection Heq as <-. cbn in Hid. injection Hid as <-.
           apply String.eqb_eq in Hempty. contradiction.
      * destruct (String.eqb_spec aid id) as [-> | Hdiff].
        -- exists acontent. split; [apply in_or_app; right; now left |].
           apply lookup_insert_eq.
        -- rewrite lookup_insert_ne by exact Hdiff.
           apply in_app_or in Hin as [Hin | [Heq | []]].
           ++ destruct (IH Hin) as (c' & Hc' & Hl). eauto.
           ++ injection Heq as <-. cbn in Hid. congruence.
    + apply in_app_or in Hin as [Hin | [Heq | []]].
      * destruct (IH Hin) as (c' & Hc' & Hl). eauto.
      * injection Heq as <-. cbn in Hcontent. discriminate.
    + apply in_app_or in Hin as [Hin | [Heq | []]].
      * destruct (IH Hin) as (c' & Hc' & Hl). eauto.
      * injection Heq as <-. cbn in Hid. discriminate.
  - apply in_app_or in Hin as [Hin | [Heq | []]]; [| discriminate].
    destruct (IH Hin) as (c' & Hc' & Hl). eauto.
Qed.



(** C3 (as the code has it). [getAssetInfo] answers from the cache, with no
    upstream call, only when every requested id is cached.  When some id
    is not cached, the upstream [getAssetBatch] call carries the whole list
    of requested ids, cached ones included; the returned sequence has one
    entry per requested id, in the order of the request: the cache entry
    of the id once the response has been processed, or a placeholder.  For
    the three ids MintA, MintC, MintB with MintA and MintB cached, the three
    entries come back in that order and the upstream call carries all three
    ids. *)
Theorem getAssetInfo_sends_whole_list
    (now : Z) (mintAddresses : list string) (response : BatchResponse) (st : Backend) :
  let answer := getAssetInfo now mintAddresses response st in
  let allCached := Forall (fun mint => is_Some (tokenInfoCache st !! mint)) mintAddresses in
  length (fst answer) = length mintAddresses /\
  (allCached ->
     snd answer = st /\
     forall i mint, mintAddresses !! i = Some mint ->
                    fst answer !! i = tokenInfoCache st !! mint) /\
  (~ allCached ->
     assetBatchRequests (effects (snd answer))
     = (assetBatchRequests (effects st) ++ [mintAddresses])%list /\
     forall i mint, mintAddresses !! i = Some mint ->
       fst answer !! i
       = Some match response with
              | BatchResult _ =>
                  match tokenInfoCache (snd answer) !! mint with
                  | Some cached => cached
                  | None => placeholder
                  end
              | _ => placeholder
              end) /\
  (let example := getAssetInfo 1000 ["MintA"; "MintC"; "MintB"]
                    (BatchResult [assetOf "MintC" "CCC"]) twoCached in
   map ti_symbol (fst example) = ["AAA"; "CCC"; "BBB"] /\
   assetBatchRequests (effects (snd example))
   = (assetBatchRequests (effects twoCached) ++ [["MintA"; "MintC"; "MintB"]])%list).
Proof.
  intros answer allCached. subst answer allCached.
  unfold getAssetInfo.
  destruct (Nat.eqb_spec
              (length (omap (fun mint => tokenInfoCache st !! mint) mintAddresses))
              (length mintAddresses)) as [Hall | Hsome].
  - cbn [fst snd]. split; [exact Hall |].
    apply omap_all_Some in Hall. split; [| split].
    + intros _. split; [reflexivity |].
      intros i mint Hi.
      exact (omap_all_Some_lookup (fun m => tokenInfoCache st !! m) mintAddresses Hall i mint Hi).
    + intros Hnot. contradiction.
    + split; vm_compute; reflexivity.
  - split; [apply fetchAssetInfoDirect_length |].
    split; [| split].
    + intros Hall. apply omap_all_Some in Hall. contradiction.
    + intros _. split; [apply fetchAssetInfoDirect_requests |].
      intros i mint Hi. now apply fetchAssetInfoDirect_entry.
    + split; vm_compute; reflexivity.
Qed.

(** Three ids requested, MintA and MintB cached: the upstream call does not
    carry the uncached id alone, it carries the three ids. *)
Lemma getAssetInfo_request_carries_cached_ids :
  let example := getAssetInfo 1000 ["MintA"; "MintC"; "MintB"]
                   (BatchResult [assetOf "MintC" "CCC"]) twoCached in
  is_Some (tokenInfoCache twoCached !! "MintA") /\
  is_Some (tokenInfoCache twoCached !! "MintB") /\
  tokenInfoCache twoCached !! "MintC" = None /\
  assetBatchRequests (effects (snd example))
  = (assetBatchRequests (effects twoCached) ++ [["MintA"; "MintC"; "MintB"]])%list /\
  assetBatchRequests (effects (snd example))
  <> (assetBatchRequests (effects twoCached) ++ [["MintC"]])%list.
Proof.
  cbv zeta. repeat split.
  - vm_compute. eauto.
  - vm_compute. eauto.
  - vm_compute. discriminate.
Qed.

(** The uncached id makes the call go upstream with the three ids. *)
Lemma getAssetInfo_sends_whole_list_witness :
  assetBatchRequests
    (effects (snd (getAssetInfo 1000 ["MintA"; "MintC"; "MintB"]
                     (BatchResult [assetOf "MintC" "CCC"]) twoCached)))
  = (assetBatchRequests (effects twoCached) ++ [["MintA"; "MintC"; "MintB"]])%list.
Proof.
  destruct (getAssetInfo_sends_whole_list 1000 ["MintA"; "MintC"; "MintB"]
              (BatchResult [assetOf "MintC" "CCC"]) twoCached)
    as (_ & _ & Hupstream & _).
  apply Hupstream.
  intros Hall. inversion Hall as [| ? ? _ Hrest]; subst.
  inversion Hrest as [| ? ? [info Hinfo] _]; subst.
  vm_compute in Hinfo. discriminate.
Defined.

(** C2 (as the code has it). A lookup answers from the cache whenever the
    entry is present, whatever the current time: once the metadata of an
    id has been stored (with expiry [now + cacheExpiry]), [getAssetInfo]
    returns it at any later time, within the TTL or after it.  Only the
    periodic sweep removes an entry: [purgeExpiredCache] keeps it when run
    no later than the expiry timestamp and deletes it when run strictly
    after it, and only then is the id absent from the cache. *)
Theorem cache_entry_served_until_swept
    (now : Z) (id : string) (content : AssetContent) (st : Backend) :
  id <> "" ->
  let meta := tokenInfoOf now (cacheExpiry st) content in
  let st1 := snd (fetchAssetInfoDirect now [id]
                    (BatchResult [Some (mkAsset (Some id) (Some content))]) st) in
  tokenInfoCache st1 !! id = Some meta /\
  (forall later response, getAssetInfo later [id] response st1 = ([meta], st1)) /\
  (forall sweep, (sweep <= now + cacheExpiry st)%Z ->
     tokenInfoCache (purgeExpiredCache sweep st1) !! id = Some meta) /\
  (forall sweep, (now + cacheExpiry st < sweep)%Z -> (now + cacheExpiry st <> 0)%Z ->
     tokenInfoCache (purgeExpiredCache sweep st1) !! id = None).
Proof.
  intros Hne meta st1.
  assert (Hput : tokenInfoCache st1 !! id = Some meta).
  { subst st1. rewrite fetchAssetInfoDirect_cache. cbn [fold_left cacheAsset asset_id asset_content].
    apply String.eqb_neq in Hne. rewrite Hne. apply lookup_insert_eq. }
  split; [exact Hput |]. split; [| split].
  - intros later response. unfold getAssetInfo. cbn [omap list_omap].
    rewrite Hput. reflexivity.
  - intros sweep Hle. rewrite purgeExpiredCache_lookup, Hput.
    unfold expired, meta. cbn [ti_expiry tokenInfoOf].
    replace (now + cacheExpiry st <? sweep)%Z with false by (symmetry; apply Z.ltb_ge; lia).
    rewrite andb_false_r. reflexivity.
  - intros sweep Hlt Hnz. rewrite purgeExpiredCache_lookup, Hput.
    unfold expired, meta. cbn [ti_expiry tokenInfoOf].
    replace (now + cacheExpiry st <? sweep)%Z with true by (symmetry; apply Z.ltb_lt; lia).
    replace (now + cacheExpiry st =? 0)%Z with false by (symmetry; apply Z.eqb_neq; lia).
    reflexivity.
Qed.

(** Metadata stored at time 0 with the constructor's TTL of 300000 ms:
    served at time 400000, gone after a sweep at that time. *)
Lemma cache_entry_served_until_swept_witness :
  let content := mkAssetContent (Some "AAA") None in
  let st1 := snd (fetchAssetInfoDirect 0 ["MintA"]
                    (BatchResult [Some (mkAsset (Some "MintA") (Some content))])
                    constructor) in
  fst (getAssetInfo 400000 ["MintA"] BatchError st1)
  = [tokenInfoOf 0 300000 content] /\
  tokenInfoCache (purgeExpiredCache 400000 st1) !! "MintA" = None.
Proof.
  intros content st1.
  destruct (cache_entry_served_until_swept 0 "MintA" content constructor)
    as (_ & Hget & _ & Hswept); [discriminate |].
  split.
  - fold st1 in Hget. rewrite (Hget 400000%Z BatchError). reflexivity.
  - apply Hswept; cbn; lia.
Defined.

(** Metadata stored at time 0 expires at 300000; with no sweep in between,
    the lookup at time 400000 is still answered with it. *)
Lemma stale_entry_served_after_expiry :
  let st1 := snd (fetchAssetInfoDirect 0 ["MintA"]
                    (BatchResult [assetOf "MintA" "AAA"]) constructor) in
  exists info expiry,
    fst (getAssetInfo 400000 ["MintA"] BatchError st1) = [info] /\
    ti_expiry info = Some expiry /\ (expiry < 400000)%Z.
Proof.
  cbv zeta. eexists. exists 300000%Z.
  split; [vm_compute; reflexivity |]. split; [reflexivity | lia].
Qed.

End Cache.

Section Direction.
Import JsString Helius.

Lemma extractTokenTransfers_In st enhancedTx transfers transfer tokenAmount :
  In transfer transfers ->
  tt_tokenAmount transfer = Some tokenAmount ->
  tokenAmount <> "" -> tokenAmount <> "0" ->
  In (tokenTransferAmount st enhancedTx transfer tokenAmount)
     (extractTokenTransfers st enhancedTx transfers).
Proof.
  intros Hin Hamount Hne H0.
  apply list_elem_of_In. unfold extractTokenTransfers.
  apply list_elem_of_omap. exists transfer.
  split; [now apply list_elem_of_In |].
  rewrite Hamount.
  apply String.eqb_neq in Hne, H0. rewrite Hne, H0. reflexivity.
Qed.

Lemma extractTokenAmounts_In st enhancedTx transfers a :
  tx_tokenTransfers enhancedTx = Some transfers ->
  In a (extractTokenTransfers st enhancedTx transfers) ->
  In a (extractTokenAmounts st enhancedTx).
Proof.
  intros Htx Hin. unfold extractTokenAmounts. rewrite Htx.
  destruct (tx_nativeTransfers enhancedTx); [| exact Hin].
  destruct (negb _); [| exact Hin].
  apply in_or_app. now left.
Qed.

(** C4. For every token transfer whose asset identifier is the
    reference-asset mint [So11111111111111111111111111111111111111112] (and
    whose amount is present and not ['0'], so that it is recorded), the
    direction recorded by [extractTokenAmounts] is the opposite of the
    direction computed by [determineBuySell] from the membership of the
    transfer's accounts in the tracked wallets: a tracked wallet receiving
    the reference asset yields SELL, a tracked wallet sending it yields
    BUY. *)
Theorem reference_asset_direction_inverted
    (st : Backend) (enhancedTx : EnhancedTx) (transfers : list TokenTransfer)
    (transfer : TokenTransfer) (tokenAmount : string) :
  tx_tokenTransfers enhancedTx = Some transfers ->
  In transfer transfers ->
  tt_mint transfer = Some SOL_MINT ->
  tt_tokenAmount transfer = Some tokenAmount ->
  tokenAmount <> "" -> tokenAmount <> "0" ->
  let recorded := tokenTransferAmount st enhancedTx transfer tokenAmount in
  let isReceiving := existsb (involves (tt_toUserAccount transfer)) (trackedWallets st) in
  let isSending := existsb (involves (tt_fromUserAccount transfer)) (trackedWallets st) in
  In recorded (extractTokenAmounts st enhancedTx) /\
  ta_isSOL recorded = true /\
  ta_type recorded = opposite (directionOf (determineBuySell st transfer enhancedTx)) /\
  (isReceiving = true -> isSending = false -> ta_type recorded = SELL) /\
  (isSending = true -> isReceiving = false -> ta_type recorded = BUY).
Proof.
  intros Htx Hin Hmint Hamount Hne H0 recorded isReceiving isSending.
  assert (Hsol : strict_eq (tt_mint transfer) SOL_MINT = true).
  { rewrite Hmint. cbn [strict_eq]. apply String.eqb_refl. }
  assert (Htype : ta_type recorded
                  = opposite (directionOf (determineBuySell st transfer enhancedTx))).
  { subst recorded. unfold tokenTransferAmount. cbn [ta_type]. rewrite Hsol.
    destruct (determineBuySell st transfer enhancedTx); reflexivity. }
  split.
  { eapply extractTokenAmounts_In; [exact Htx |].
    now apply extractTokenTransfers_In. }
  split.
  { subst recorded. unfold tokenTransferAmount. cbn [ta_isSOL]. exact Hsol. }
  split; [exact Htype |].
  split; intros H1 H2; rewrite Htype; unfold determineBuySell;
    fold isReceiving; fold isSending; rewrite H1, H2; reflexivity.
Qed.

(** The tracked wallet receives wrapped SOL in a swap: recorded as SELL. *)
Lemma reference_asset_direction_inverted_witness :
  let wallet := "7xKXtg2CW87d97TXJSDpbD5jBkheTqA83TZRuJosgAsU" in
  let transfer := mkTokenTransfer (Some SOL_MINT) (Some "2000000000") None
                                  (Some "PoolAccount") (Some wallet) in
  let tx := mkEnhancedTx (Some "SWAP") (Some [transfer]) None None in
  ta_type (tokenTransferAmount (watching wallet) tx transfer "2000000000") = SELL.
Proof.
  intros wallet transfer tx.
  destruct (reference_asset_direction_inverted (watching wallet) tx [transfer]
              transfer "2000000000") as (_ & _ & _ & Hreceiving & _);
    [ reflexivity | now left | reflexivity | reflexivity | discriminate | discriminate | ].
  apply Hreceiving; vm_compute; reflexivity.
Defined.

End Direction.

Section Amounts.
Import JsString JsNumber Format.






End Amounts.

Section Pipeline.
Import JsString TransactionFilters Helius.

Lemma admittedOnly_refl (st : Backend) : admittedOnly st st.
Proof. exists []. split; [now rewrite app_nil_r | constructor]. Qed.

Lemma notifyTransaction_notified td st :
  notified (effects (notifyTransaction td st))
  = (notified (effects st) ++ if onTransactionReceived st then [td] else [])%list.
Proof.
  unfold notifyTransaction, notified.
  destruct (onTransactionReceived st); cbn [effects emit].
  - now rewrite omap_app.
  - now rewrite app_nil_r.
Qed.

Lemma handleFallbackTransaction_notified now signature st :
  notified (effects (handleFallbackTransaction now signature st))
  = (notified (effects st)
     ++ match signature with
        | Some sig =>
            if String.eqb sig "" then []
            else if onTransactionReceived st then [fallbackTransactionData now sig] else []
        | None => []
        end)%list.
Proof.
  unfold handleFallbackTransaction.
  destruct signature as [sig |]; [destruct (String.eqb sig "") |];
    rewrite ?app_nil_r; try reflexivity.
  apply notifyTransaction_notified.
Qed.

Lemma getEnhancedTransaction_keeps signature response st :
  let st1 := snd (getEnhancedTransaction signature response st) in
  notified (effects st1) = notified (effects st) /\
  assetBatchRequests (effects st1) = assetBatchRequests (effects st) /\
  tokenInfoCache st1 = tokenInfoCache st /\
  trackedWallets st1 = trackedWallets st /\
  onTransactionReceived st1 = onTransactionReceived st.
Proof.
  destruct (rotateApiKeyByUsage_keeps st) as (Hc & _ & Hw & Hh & Hn & Hr).
  unfold getEnhancedTransaction, fetchEnhancedTransactionDirect.
  assert (Hemit : forall key,
             let st2 := emit (HttpEnhancedTransaction key signature)
                             (rotateApiKeyByUsage st) in
             notified (effects st2) = notified (effects st) /\
             assetBatchRequests (effects st2) = assetBatchRequests (effects st) /\
             tokenInfoCache st2 = tokenInfoCache st /\
             trackedWallets st2 = trackedWallets st /\
             onTransactionReceived st2 = onTransactionReceived st).
  { intros key. cbn. unfold notified, assetBatchRequests in *.
    rewrite !omap_app, Hn, Hr. cbn. rewrite !app_nil_r. auto. }
  destruct response as [[| first rest] | |]; apply Hemit.
Qed.

Lemma getAssetInfo_notified now mints response st :
  notified (effects (snd (getAssetInfo now mints response st))) = notified (effects st).
Proof.
  destruct (rotateApiKeyByUsage_keeps st) as (_ & _ & _ & _ & Hn & _).
  unfold getAssetInfo, fetchAssetInfoDirect.
  destruct (_ =? _)%nat; [reflexivity |].
  destruct response; cbn [snd effects set_tokenInfoCache emit];
    unfold notified in *; rewrite omap_app, Hn; cbn; now rewrite app_nil_r.
Qed.

(** The hand-off of step 8. *)
Lemma filtered_hand_off td st :
  admittedOnly st (if shouldShowTransaction (Some td) then notifyTransaction td st else st).
Proof.
  destruct (shouldShowTransaction (Some td)) eqn:Hshow; [| apply admittedOnly_refl].
  exists (if onTransactionReceived st then [td] else []).
  split; [apply notifyTransaction_notified |].
  destruct (onTransactionReceived st); repeat constructor. exact Hshow.
Qed.

Lemma classifyAndNotify_admittedOnly now signature enhancedTx mintAddresses assetInfoArray st :
  admittedOnly st (classifyAndNotify now signature enhancedTx mintAddresses assetInfoArray st).
Proof.
  unfold classifyAndNotify. cbv zeta.
  destruct (firstValidNonSOLToken mintAddresses 0 assetInfoArray) as [primaryToken |];
    [| apply admittedOnly_refl].
  destruct (List.filter ta_isSOL (extractTokenAmounts st enhancedTx)) as [| first rest].
  - apply filtered_hand_off.
  - destruct (JsNumber.ltb _ _); [apply admittedOnly_refl |].
    destruct (userInvolvedInTransaction _); [| apply admittedOnly_refl].
    apply filtered_hand_off.
Qed.

(** C6. For every successfully enriched transaction whose kind tag is not a
    swap (neither equal to 'SWAP' nor containing 'swap' in any letter case),
    processing stops right after the enrichment call: no event is handed to
    the callback, no asset metadata is looked up or cached, and the backend
    is left as the enrichment call left it, whatever the transfers of the
    transaction are. *)
Theorem non_swap_transaction_dropped
    (now : Z) (data : Frame) (enhanced : EnhancedResponse) (batch : BatchResponse)
    (st : Backend) (tx : EnhancedTx) (rest : list (option EnhancedTx)) (type : string) :
  enhanced = EnhancedData (Some tx :: rest) ->
  tx_type tx = Some type ->
  type <> "SWAP" ->
  includes (toLowerCase type) "swap" = false ->
  let st' := processTransactionUpdate now data enhanced batch st in
  notified (effects st') = notified (effects st) /\
  assetBatchRequests (effects st') = assetBatchRequests (effects st) /\
  tokenInfoCache st' = tokenInfoCache st /\
  (st' = st \/
   exists signature, fr_signature data = Some signature /\
                     st' = snd (getEnhancedTransaction signature enhanced st)).
Proof.
  intros -> Htype Hswap Hincludes st'. subst st'.
  unfold processTransactionUpdate.
  destruct (strict_eq (fr_method data) "logsNotification"); [| now auto].
  destruct (trackedWallets st); [now auto |].
  destruct (fr_signature data) as [signature |]; [| now auto].
  destruct (String.eqb signature ""); [now auto |].
  pose proof (getEnhancedTransaction_keeps signature (EnhancedData (Some tx :: rest)) st)
    as (Hn & Hr & Hc & _).
  assert (Hfst : fst (getEnhancedTransaction signature (EnhancedData (Some tx :: rest)) st)
                 = Some tx) by reflexivity.
  destruct (getEnhancedTransaction signature (EnhancedData (Some tx :: rest)) st)
    as [enhancedTx st1] eqn:Hcall.
  cbn [fst snd] in *. subst enhancedTx. rewrite Htype.
  apply String.eqb_neq in Hswap. rewrite Hswap, Hincludes. cbn [negb andb].
  repeat split; try assumption. right. exists signature.
  split; [reflexivity | now rewrite Hcall].
Qed.

(** An 'account_change' transaction that moves SOL and a token to the
    tracked wallet: nothing is notified. *)
Lemma non_swap_transaction_dropped_witness :
  let wallet := "7xKXtg2CW87d97TXJSDpbD5jBkheTqA83TZRuJosgAsU" in
  let tx := mkEnhancedTx (Some "account_change")
              (Some [ mkTokenTransfer (Some SOL_MINT) (Some "2000000000") None
                                      (Some wallet) (Some "PoolAccount");
                      mkTokenTransfer (Some "FooMint") (Some "1234.5") (Some "Fungible")
                                      (Some "PoolAccount") (Some wallet) ])
              None None in
  notified (effects (processTransactionUpdate 1000
                       (mkFrame (Some "logsNotification") (Some "5sig"))
                       (EnhancedData [Some tx])
                       (BatchResult [assetOf "FooMint" "FOO"])
                       (watching wallet)))
  = [].
Proof.
  intros wallet tx.
  destruct (non_swap_transaction_dropped 1000
              (mkFrame (Some "logsNotification") (Some "5sig"))
              (EnhancedData [Some tx]) (BatchResult [assetOf "FooMint" "FOO"])
              (watching wallet) tx [] "account_change") as (Hnone & _);
    [ reflexivity | reflexivity | discriminate | reflexivity | ].
  exact Hnone.
Defined.

(** C1 (as the code has it). Every event that the enhanced processing path
    (steps 5 to 8) hands to the callback has first been admitted by
    [shouldShowTransaction].  Over a whole [processTransactionUpdate], an
    event handed to the callback is either such an admitted event or the
    fallback event of [handleFallbackTransaction], which is handed over
    without consulting the filter when the enrichment returned nothing or
    when processing threw on a missing kind tag; the filter rejects the
    fallback event. *)
Theorem notified_events_admitted_or_fallback
    (now : Z) (data : Frame) (enhanced : EnhancedResponse) (batch : BatchResponse)
    (st : Backend) :
  (forall signature enhancedTx mintAddresses assetInfoArray,
     admittedOnly st (classifyAndNotify now signature enhancedTx mintAddresses
                                        assetInfoArray st)) /\
  (exists new,
     notified (effects (processTransactionUpdate now data enhanced batch st))
     = (notified (effects st) ++ new)%list /\
     Forall (fun td =>
               shouldShowTransaction (Some td) = true \/
               exists signature,
                 fr_signature data = Some signature /\
                 td = fallbackTransactionData now signature /\
                 (fst (getEnhancedTransaction signature enhanced st) = None \/
                  exists tx, fst (getEnhancedTransaction signature enhanced st) = Some tx /\
                             tx_type tx = None)) new) /\
  (forall signature,
     shouldShowTransaction (Some (fallbackTransactionData now signature)) = false).
Proof.
  split; [| split].
  - intros. apply classifyAndNotify_admittedOnly.
  - assert (Hnone : exists new,
               notified (effects st) = (notified (effects st) ++ new)%list /\
               Forall (fun td =>
                 shouldShowTransaction (Some td) = true \/
                 exists signature,
                   fr_signature data = Some signature /\
                   td = fallbackTransactionData now signature /\
                   (fst (getEnhancedTransaction signature enhanced st) = None \/
                    exists tx, fst (getEnhancedTransaction signature enhanced st) = Some tx /\
                               tx_type tx = None)) new).
    { exists []. split; [now rewrite app_nil_r | constructor]. }
    unfold processTransactionUpdate.
    destruct (strict_eq (fr_method data) "logsNotification"); [| exact Hnone].
    destruct (trackedWallets st); [exact Hnone |].
    destruct (fr_signature data) as [signature |] eqn:Hsig; [| exact Hnone].
    destruct (String.eqb signature "") eqn:Hempty; [exact Hnone |].
    clear Hnone.
    pose proof (getEnhancedTransaction_keeps signature enhanced st) as (Hn & _).
    destruct (getEnhancedTransaction signature enhanced st) as [enhancedTx st1] eqn:Hcall.
    cbn [fst snd] in *.
    assert (Hfallback : enhancedTx = None \/
                        (exists tx, enhancedTx = Some tx /\ tx_type tx = None) ->
               exists new,
                 notified (effects (handleFallbackTransaction now (Some signature) st1))
                 = (notified (effects st) ++ new)%list /\
                 Forall (fun td =>
                   shouldShowTransaction (Some td) = true \/
                   exists signature0,
                     Some signature = Some signature0 /\
                     td = fallbackTransactionData now signature0 /\
                     (fst (getEnhancedTransaction signature0 enhanced st) = None \/
                      exists tx, fst (getEnhancedTransaction signature0 enhanced st) = Some tx /\
                                 tx_type tx = None)) new).
    { intros reason. rewrite handleFallbackTransaction_notified, Hempty, Hn.
      eexists. split; [reflexivity |].
      destruct (onTransactionReceived st1); [| constructor].
      constructor; [| constructor].
      right. exists signature. rewrite Hcall. cbn [fst]. auto. }
    destruct enhancedTx as [tx |]; [| apply Hfallback; now left].
    destruct (tx_type tx) as [type |] eqn:Htype; [| apply Hfallback; right; eauto].
    clear Hfallback.
    destruct (negb (String.eqb type "SWAP") && negb (includes (toLowerCase type) "swap")).
    { exists []. split; [now rewrite Hn, app_nil_r | constructor]. }
    destruct (extractMintAddresses tx) as [| mint mints].
    { exists []. split; [now rewrite Hn, app_nil_r | constructor]. }
    pose proof (getAssetInfo_notified now (mint :: mints) batch st1) as Ha.
    destruct (getAssetInfo now (mint :: mints) batch st1) as [assetInfoArray st2].
    cbn [snd] in Ha.
    destruct (classifyAndNotify_admittedOnly now signature tx (mint :: mints)
                assetInfoArray st2) as (new & Hnew & Hall).
    exists new. split; [now rewrite Hnew, Ha, Hn |].
    eapply Forall_impl; [exact Hall |]. cbn. auto.
  - intros signature. reflexivity.
Qed.

(** A swap in which the tracked wallet pays 2 SOL for FOO: the one event
    handed to the callback is admitted by the filter. *)
Lemma notified_events_admitted_or_fallback_witness :
  let wallet := "7xKXtg2CW87d97TXJSDpbD5jBkheTqA83TZRuJosgAsU" in
  let tx := mkEnhancedTx (Some "SWAP")
              (Some [ mkTokenTransfer (Some SOL_MINT) (Some "2000000000") None
                                      (Some wallet) (Some "PoolAccount");
                      mkTokenTransfer (Some "FooMint") (Some "1234.5") (Some "Fungible")
                                      (Some "PoolAccount") (Some wallet) ])
              None None in
  let st := watching wallet in
  exists td,
    notified (effects (classifyAndNotify 1000 "5sig" tx [SOL_MINT; "FooMint"]
                         [mkTokenInfo "SOL" None None; mkTokenInfo "FOO" None None] st))
    = [td] /\
    td_token td = Some "FOO" /\ td_buySell td = Some "BUY" /\
    shouldShowTransaction (Some td) = true.
Proof.
  intros wallet tx st.
  destruct (notified_events_admitted_or_fallback 1000
              (mkFrame (Some "logsNotification") (Some "5sig"))
              EnhancedError BatchError st) as (Hadmitted & _).
  destruct (Hadmitted "5sig" tx [SOL_MINT; "FooMint"]
              [mkTokenInfo "SOL" None None; mkTokenInfo "FOO" None None])
    as (new & Hnew & Hall).
  assert (Hrun : notified (effects (classifyAndNotify 1000 "5sig" tx [SOL_MINT; "FooMint"]
                   [mkTokenInfo "SOL" None None; mkTokenInfo "FOO" None None] st))
                 = [mkTransactionData "5sig" (Some wallet) (Some "FOO") "🟢 2.000 SOL"
                      (Some "BUY") (Some (JsNumber.of_Z 2)) (Some "enhanced_transaction")
                      None 1000])
    by (vm_compute; reflexivity).
  rewrite Hrun in Hnew. cbn [notified effects st watching omap list_omap app] in Hnew.
  subst new. inversion Hall as [| td tds Hshow _]; subst.
  eexists. split; [exact Hrun |].
  split; [reflexivity |]. split; [reflexivity | exact Hshow].
Defined.

(** The enrichment call fails, or the enriched transaction has no kind tag:
    the callback receives the fallback event, which the filter rejects. *)
Lemma fallback_event_not_admitted :
  let st := watching "7xKXtg2CW87d97TXJSDpbD5jBkheTqA83TZRuJosgAsU" in
  let frame := mkFrame (Some "logsNotification") (Some "5sig") in
  notified (effects (processTransactionUpdate 1000 frame EnhancedError BatchError st))
  = [fallbackTransactionData 1000 "5sig"] /\
  notified (effects (processTransactionUpdate 1000 frame
                       (EnhancedData [Some (mkEnhancedTx None None None None)])
                       BatchError st))
  = [fallbackTransactionData 1000 "5sig"] /\
  shouldShowTransaction (Some (fallbackTransactionData 1000 "5sig")) = false.
Proof. cbv zeta. repeat split; vm_compute; reflexivity. Qed.

End Pipeline.

(** * Further properties of the filter *)

Section FilterVerdict.
Import JsString TransactionFilters.

Lemma trimStart_length (s : string) : (String.length (trimStart s) <= String.length s)%nat.
Proof.
  induction s as [| c r IH]; cbn; [lia |].
  destruct (is_space c); cbn; lia.
Qed.

Lemma trimEnd_length (s : string) : (String.length (trimEnd s) <= String.length s)%nat.
Proof.
  induction s as [| c r IH]; cbn; [lia |].
  destruct (trimEnd r) as [| c' r'] eqn:E.
  - destruct (is_space c); cbn; lia.
  - cbn in *. lia.
Qed.

Lemma trim_length (s : string) : (String.length (trim s) <= String.length s)%nat.
Proof.
  unfold trim.
  pose proof (trimEnd_length (trimStart s)). pose proof (trimStart_length s). lia.
Qed.

(** X1. The verdict of [shouldShowTransaction] depends on the token alone:
    an event is admitted exactly when its token is a string of at least two
    characters that is not on the token blacklist.  The wallet-name, the
    transaction-type, the trimmed-length and the mint-address checks never
    change the outcome. *)
Theorem shouldShowTransaction_decided_by_token (td : TransactionData) :
  shouldShowTransaction (Some td) = true <->
  exists token, td_token td = Some token /\
                (2 <= String.length token)%nat /\
                isTokenBlacklisted (Some token) = false.
Proof.
  unfold shouldShowTransaction. split.
  - destruct (td_token td) as [token |] eqn:Htoken; [| cbn; discriminate].
    destruct (isTokenBlacklisted (Some token)) eqn:Hbl.
    + rewrite andb_false_r. destruct (_ && _ && _); discriminate.
    + cbn [negb]. rewrite andb_true_r. intros H. exists token.
      split; [reflexivity |]. split; [| exact Hbl].
      destruct (2 <=? String.length token)%nat eqn:Hlen; [now apply Nat.leb_le |].
      destruct (truthy (Some token) && negb (strict_eq (Some token) "SOL")
                && negb (strict_eq (Some token) "WSOL")) in H.
      all: destruct (isWalletNameBlacklisted _) in H; [discriminate |].
      all: destruct (isTransactionTypeBlacklisted _) in H; [discriminate |].
      all: unfold hasValidTokenLength in H.
      all: destruct (truthy (Some token)) in H; [| discriminate].
      all: cbn [negb] in H.
      all: destruct (2 <=? String.length (trim token))%nat eqn:Htrim; [| discriminate].
      all: apply Nat.leb_le in Htrim; apply Nat.leb_gt in Hlen.
      all: pose proof (trim_length token); lia.
  - intros (token & Htoken & Hlen & Hbl). rewrite Htoken, Hbl.
    assert (Htruthy : truthy (Some token) = true).
    { unfold isTokenBlacklisted in Hbl.
      destruct (truthy (Some token)); [reflexivity | discriminate]. }
    assert (Hsol : strict_eq (Some token) "SOL" = false).
    { cbn. destruct (String.eqb_spec token "SOL") as [-> |]; [| reflexivity].
      vm_compute in Hbl. discriminate. }
    assert (Hwsol : strict_eq (Some token) "WSOL" = false).
    { cbn. destruct (String.eqb_spec token "WSOL") as [-> |]; [| reflexivity].
      vm_compute in Hbl. discriminate. }
    rewrite Htruthy, Hsol, Hwsol. apply Nat.leb_le in Hlen. rewrite Hlen. reflexivity.
Qed.

End FilterVerdict.

(** * Further properties of the key rotor *)

Section RotorCycle.
Import Helius.

Lemma rotate_maxCalls (st : Backend) :
  maxCallsPerRotation (rotate st) = maxCallsPerRotation st.
Proof.
  unfold rotate, reconnectWithNewApiKey. cbn [isConnected set_key websocket].
  destruct (isConnected st); [destruct (websocket st) |]; reflexivity.
Qed.

(** X2. From a state whose index designates a key of the pool, [k]
    rotations by the timer move the index [k] places round the pool: it
    becomes [(index + k) mod size], the pool is unchanged, and after as many
    rotations as there are keys the key in use is the one the rotations
    started from. *)
Theorem rotateApiKeyByTime_goes_round_the_pool (k : nat) (st : Backend) :
  rotorOk st ->
  heliusApiKeys (repeatedly k rotateApiKeyByTime st) = heliusApiKeys st /\
  currentApiKeyIndex (repeatedly k rotateApiKeyByTime st)
  = ((currentApiKeyIndex st + k) mod length (heliusApiKeys st))%nat /\
  getCurrentApiKey (repeatedly (length (heliusApiKeys st)) rotateApiKeyByTime st)
  = getCurrentApiKey st.
Proof.
  intros Hok.
  assert (Hgen : forall k st0,
             heliusApiKeys st0 = heliusApiKeys st ->
             (currentApiKeyIndex st0 < length (heliusApiKeys st))%nat ->
             heliusApiKeys (repeatedly k rotateApiKeyByTime st0) = heliusApiKeys st /\
             currentApiKeyIndex (repeatedly k rotateApiKeyByTime st0)
             = ((currentApiKeyIndex st0 + k) mod length (heliusApiKeys st))%nat).
  { clear k. induction k as [| k IH]; intros st0 Hp Hi; cbn [repeatedly].
    - split; [exact Hp |]. rewrite Nat.add_0_r. symmetry. now apply Nat.mod_small.
    - destruct (rotate_index st0) as (Hp' & Hi' & _).
      change (rotateApiKeyByTime st0) with (rotate st0).
      destruct (IH (rotate st0)) as (Hp'' & Hi'').
      + now rewrite Hp'.
      + rewrite Hi', Hp. apply Nat.mod_upper_bound. lia.
      + split; [exact Hp'' |]. rewrite Hi'', Hi', Hp.
        rewrite Nat.Div0.add_mod_idemp_l. f_equal. lia. }
  unfold rotorOk in Hok.
  destruct (Hgen k st eq_refl Hok) as (Hp & Hi).
  split; [exact Hp |]. split; [exact Hi |].
  destruct (Hgen (length (heliusApiKeys st)) st eq_refl Hok) as (Hp' & Hi').
  unfold getCurrentApiKey. rewrite Hp', Hi'. f_equal.
  rewrite <- (Nat.mul_1_l (length (heliusApiKeys st))) at 1.
  rewrite Nat.Div0.mod_add. now apply Nat.mod_small.
Qed.

(** Seven rotations from the constructor's state end on the third key. *)
Lemma rotateApiKeyByTime_goes_round_the_pool_witness :
  currentApiKeyIndex (repeatedly 7 rotateApiKeyByTime constructor) = 2%nat.
Proof.
  destruct (rotateApiKeyByTime_goes_round_the_pool 7 constructor) as (_ & Hindex & _).
  - unfold rotorOk. cbn. lia.
  - exact Hindex.
Defined.

(** X3. A key serves [maxCallsPerRotation] calls between rotations: while
    the counter stays below the threshold, [k] outbound calls leave the key
    index alone and add [k] to the counter; the call that brings the counter
    to the threshold moves the index to the next key of the pool and resets
    the counter. *)
Theorem rotateApiKeyByUsage_counts_calls (k : nat) (st : Backend) :
  (callsPerKey st + k < maxCallsPerRotation st)%nat ->
  let st' := repeatedly k rotateApiKeyByUsage st in
  currentApiKeyIndex st' = currentApiKeyIndex st /\
  callsPerKey st' = (callsPerKey st + k)%nat /\
  (callsPerKey st + k + 1 = maxCallsPerRotation st ->
   currentApiKeyIndex (rotateApiKeyByUsage st')
   = ((currentApiKeyIndex st + 1) mod length (heliusApiKeys st))%nat /\
   callsPerKey (rotateApiKeyByUsage st') = 0%nat).
Proof.
  revert st. induction k as [| k IH]; intros st Hlt; cbn [repeatedly].
  - split; [reflexivity |]. split; [lia |]. intros Hmax.
    unfold rotateApiKeyByUsage. cbn [maxCallsPerRotation callsPerKey set_key].
    replace (maxCallsPerRotation st <=? callsPerKey st + 1)%nat with true
      by (symmetry; apply Nat.leb_le; lia).
    destruct (rotate_index (set_key (currentApiKeyIndex st) (callsPerKey st + 1) st))
      as (_ & Hi & Hc). now split.
  - assert (Hstep : rotateApiKeyByUsage st
                    = set_key (currentApiKeyIndex st) (callsPerKey st + 1) st).
    { unfold rotateApiKeyByUsage. cbn [maxCallsPerRotation callsPerKey set_key].
      replace (maxCallsPerRotation st <=? callsPerKey st + 1)%nat with false
        by (symmetry; apply Nat.leb_gt; lia). reflexivity. }
    rewrite Hstep.
    destruct (IH (set_key (currentApiKeyIndex st) (callsPerKey st + 1) st))
      as (Hi & Hc & Hrot); [cbn; lia |].
    cbn [currentApiKeyIndex callsPerKey maxCallsPerRotation heliusApiKeys set_key] in *.
    split; [exact Hi |]. split; [lia |].
    intros Hmax. apply Hrot. lia.
Qed.

(** From the constructor's state, 99 calls stay on the first key and the
    hundredth moves to the second. *)
Lemma rotateApiKeyByUsage_counts_calls_witness :
  currentApiKeyIndex (repeatedly 99 rotateApiKeyByUsage constructor) = 0%nat /\
  currentApiKeyIndex (rotateApiKeyByUsage (repeatedly 99 rotateApiKeyByUsage constructor))
  = 1%nat.
Proof.
  destruct (rotateApiKeyByUsage_counts_calls 99 constructor) as (Hi & _ & Hrot);
    [cbn; lia |].
  split; [exact Hi |].
  destruct Hrot as (Hnext & _); [reflexivity | exact Hnext].
Defined.

End RotorCycle.

(** * Further properties of the metadata cache *)

Section CacheSweep.
Import Helius.

Lemma expired_max (t1 t2 : Z) (value : TokenInfo) :
  expired (Z.max t1 t2) value = expired t1 value || expired t2 value.
Proof.
  unfold expired. destruct (ti_expiry value) as [e |]; [| reflexivity].
  destruct (e =? 0)%Z; cbn [negb andb]; [reflexivity |].
  destruct (Z.ltb_spec e t1), (Z.ltb_spec e t2), (Z.ltb_spec e (Z.max t1 t2));
    cbn; try reflexivity; lia.
Qed.

(** X4. Sweeps compose and lose nothing that is still valid: a sweep at
    [t1] followed by a sweep at [t2] leaves the cache that one sweep at the
    later of the two times leaves; an entry that survives a sweep was in the
    cache before it, unchanged, and its expiry is missing, zero, or not
    before the sweep time. *)
Theorem purgeExpiredCache_composes (t1 t2 : Z) (st : Backend) :
  purgeExpiredCache t2 (purgeExpiredCache t1 st) = purgeExpiredCache (Z.max t1 t2) st /\
  (forall id info,
     tokenInfoCache (purgeExpiredCache t1 st) !! id = Some info ->
     tokenInfoCache st !! id = Some info /\
     forall expiry, ti_expiry info = Some expiry -> (expiry = 0 \/ t1 <= expiry)%Z).
Proof.
  split.
  - assert (Hcache : tokenInfoCache (purgeExpiredCache t2 (purgeExpiredCache t1 st))
                     = tokenInfoCache (purgeExpiredCache (Z.max t1 t2) st)).
    { apply map_eq. intros id. rewrite !purgeExpiredCache_lookup.
      destruct (tokenInfoCache st !! id) as [value |]; [| reflexivity].
      rewrite expired_max.
      destruct (expired t1 value); [reflexivity |]. reflexivity. }
    unfold purgeExpiredCache in *. cbn [tokenInfoCache set_tokenInfoCache] in *.
    unfold set_tokenInfoCache. cbn. now rewrite Hcache.
  - intros id info. rewrite purgeExpiredCache_lookup.
    destruct (tokenInfoCache st !! id) as [value |]; [| discriminate].
    destruct (expired t1 value) eqn:He; [discriminate |].
    intros [= <-]. split; [reflexivity |].
    intros expiry Hexp. unfold expired in He. rewrite Hexp in He.
    destruct (Z.eqb_spec expiry 0); [now left |].
    cbn [negb andb] in He. apply Z.ltb_ge in He. now right.
Qed.

Lemma cacheAsset_fold_untouched now ttl (result : list (option Asset)) cache id :
  (forall asset content,
     In (Some asset) result -> asset_id asset = Some id ->
     asset_content asset = Some content -> id = "") ->
  fold_left (cacheAsset now ttl) result cache !! id = cache !! id.
Proof.
  revert cache. induction result as [| a result IH]; intros cache Hnone; [reflexivity |].
  cbn [fold_left]. rewrite IH.
  - destruct a as [[aid acontent] |]; cbn [cacheAsset asset_id asset_content]; [| reflexivity].
    destruct aid as [aid |]; [| reflexivity].
    destruct acontent as [acontent |]; [| reflexivity].
    destruct (String.eqb aid "") eqn:Hempty; [reflexivity |].
    apply lookup_insert_ne. intros ->.
    apply String.eqb_neq in Hempty. apply Hempty.
    apply (Hnone (mkAsset (Some id) (Some acontent)) acontent); [now left | reflexivity ..].
  - intros asset content Hin. apply Hnone. now right.
Qed.

Lemma cacheAsset_fold_keeps now ttl (result : list (option Asset)) cache id :
  is_Some (cache !! id) ->
  is_Some (fold_left (cacheAsset now ttl) result cache !! id).
Proof.
  revert cache. induction result as [| a result IH]; intros cache Hsome; [exact Hsome |].
  cbn [fold_left]. apply IH.
  destruct a as [[aid acontent] |]; cbn [cacheAsset asset_id asset_content]; [| exact Hsome].
  destruct aid as [aid |]; [| exact Hsome].
  destruct acontent as [acontent |]; [| exact Hsome].
  destruct (String.eqb aid ""); [exact Hsome |].
  destruct (String.eqb_spec aid id) as [-> | Hne].
  - rewrite lookup_insert_eq. eauto.
  - now rewrite lookup_insert_ne.
Qed.

(** X5. A fetch only adds to the cache.  An id for which the upstream
    result holds no asset with a content keeps the entry it had (or stays
    absent), a failed call leaves the whole cache as it was, and no call
    ever removes an id from the cache. *)
Theorem fetchAssetInfoDirect_only_adds
    (now : Z) (mintAddresses : list string) (response : BatchResponse) (st : Backend) :
  let cache' := tokenInfoCache (snd (fetchAssetInfoDirect now mintAddresses response st)) in
  (forall id,
     (forall result asset content,
        response = BatchResult result -> In (Some asset) result ->
        asset_id asset = Some id -> asset_content asset = Some content -> id = "") ->
     cache' !! id = tokenInfoCache st !! id) /\
  ((forall result, response <> BatchResult result) -> cache' = tokenInfoCache st) /\
  (forall id, is_Some (tokenInfoCache st !! id) -> is_Some (cache' !! id)).
Proof.
  intros cache'. subst cache'. rewrite fetchAssetInfoDirect_cache.
  split; [| split].
  - intros id Hnone. destruct response as [result | |]; try reflexivity.
    apply cacheAsset_fold_untouched. intros asset content. now apply Hnone.
  - intros Hfail. destruct response as [result | |]; try reflexivity.
    now destruct (Hfail result).
  - intros id Hsome. destruct response as [result | |]; try exact Hsome.
    now apply cacheAsset_fold_keeps.
Qed.

(** An id that the upstream result does not mention keeps its entry. *)
Lemma fetchAssetInfoDirect_only_adds_witness :
  tokenInfoCache (snd (fetchAssetInfoDirect 1000 ["MintC"]
                         (BatchResult [assetOf "MintC" "CCC"]) twoCached)) !! "MintA"
  = tokenInfoCache twoCached !! "MintA".
Proof.
  destruct (fetchAssetInfoDirect_only_adds 1000 ["MintC"]
              (BatchResult [assetOf "MintC" "CCC"]) twoCached) as (Huntouched & _).
  apply Huntouched.
  intros result asset content [= <-] [Hin | []] Hid _.
  injection Hin as <-. cbn in Hid. discriminate.
Defined.

Lemma omap_as_map {A B} (f : A -> option B) (g : A -> B) (l : list A) :
  Forall (fun a => f a = Some (g a)) l -> omap f l = map g l.
Proof.
  induction 1 as [| a l Ha _ IH]; [reflexivity |].
  cbn. rewrite Ha, IH. reflexivity.
Qed.

(** X6. Read-through round trip: after a fetch whose result was stored,
    when every requested id was either cached before or returned by the
    upstream service with a content, a later [getAssetInfo] for the same
    ids is answered from the cache, without any upstream call, with
    exactly the sequence the fetch returned. *)
Theorem getAssetInfo_after_fetch
    (now later : Z) (mintAddresses : list string)
    (result : list (option Asset)) (response' : BatchResponse) (st : Backend) :
  Forall (fun mint =>
            is_Some (tokenInfoCache st !! mint) \/
            exists asset content,
              In (Some asset) result /\ asset_id asset = Some mint /\ mint <> "" /\
              asset_content asset = Some content) mintAddresses ->
  let fetched := fetchAssetInfoDirect now mintAddresses (BatchResult result) st in
  getAssetInfo later mintAddresses response' (snd fetched) = (fst fetched, snd fetched).
Proof.
  intros Hall fetched. subst fetched.
  assert (Hcached : Forall (fun mint =>
                              is_Some (tokenInfoCache
                                         (snd (fetchAssetInfoDirect now mintAddresses
                                                 (BatchResult result) st)) !! mint))
                           mintAddresses).
  { eapply Forall_impl; [exact Hall |]. cbv beta. intros mint [Hold | Hnew].
    - rewrite fetchAssetInfoDirect_cache. now apply cacheAsset_fold_keeps.
    - destruct Hnew as (asset & content & Hin & Hid & Hne & Hcontent).
      rewrite fetchAssetInfoDirect_cache.
      destruct (cacheAsset_fold_written now (cacheExpiry st) result (tokenInfoCache st)
                  asset mint content Hin Hid Hne Hcontent) as (c' & _ & Hl).
      rewrite Hl. eauto. }
  unfold getAssetInfo.
  match goal with
  | |- context [(length (omap ?f mintAddresses) =? length mintAddresses)%nat] =>
      replace (length (omap f mintAddresses) =? length mintAddresses)%nat with true
        by (symmetry; apply Nat.eqb_eq; now apply omap_all_Some)
  end.
  f_equal.
  rewrite (omap_as_map _ (fun mint =>
             match tokenInfoCache (snd (fetchAssetInfoDirect now mintAddresses
                                          (BatchResult result) st)) !! mint with
             | Some cached => cached
             | None => placeholder
             end)).
  - unfold fetchAssetInfoDirect. reflexivity.
  - eapply Forall_impl; [exact Hcached |]. cbv beta. intros mint [info ->]. reflexivity.
Qed.

(** MintA is cached, MintC is returned: both are then served from the cache. *)
Lemma getAssetInfo_after_fetch_witness :
  let fetched := fetchAssetInfoDirect 1000 ["MintA"; "MintC"]
                   (BatchResult [assetOf "MintC" "CCC"]) twoCached in
  getAssetInfo 2000 ["MintA"; "MintC"] BatchError (snd fetched)
  = (fst fetched, snd fetched).
Proof.
  apply (getAssetInfo_after_fetch 1000 2000 ["MintA"; "MintC"]
           [assetOf "MintC" "CCC"] BatchError twoCached).
  constructor; [| constructor; [| constructor]].
  - left. vm_compute. eauto.
  - right. eexists _, _. split; [now left |].
    split; [reflexivity |]. split; [discriminate | reflexivity].
Defined.

End CacheSweep.

(** * Further properties of the transfer extractor *)

Section Extraction.
Import JsString Helius HeliusRest.

Lemma set_add_spec (x y : string) (s : list string) :
  In y (set_add x s) <-> y = x \/ In y s.
Proof.
  unfold set_add. destruct (existsb (String.eqb x) s) eqn:E.
  - apply existsb_exists in E as (z & Hz & Heq). apply String.eqb_eq in Heq. subst z.
    split; [now right | intros [-> | H]; assumption].
  - rewrite in_app_iff. cbn. split; [intros [H | [<- | []]]; auto | intros [-> | H]; auto].
Qed.

Lemma set_add_NoDup (x : string) (s : list string) : NoDup s -> NoDup (set_add x s).
Proof.
  intros Hs. unfold set_add. destruct (existsb (String.eqb x) s) eqn:E; [exact Hs |].
  apply NoDup_app. split; [exact Hs |]. split.
  - intros y Hy Hin. apply list_elem_of_In in Hy. apply list_elem_of_In in Hin.
    destruct Hin as [<- | []].
    assert (existsb (String.eqb x) s = true).
    { apply existsb_exists. exists x. split; [exact Hy | apply String.eqb_refl]. }
    congruence.
  - apply NoDup_singleton.
Qed.

(** The loop that adds the truthy mints of a list to the set. *)
Lemma collect_mints {A} (mintOf : A -> option string) (l : list A) (init : list string) :
  let collected :=
    fold_left (fun acc a =>
                 match mintOf a with
                 | Some mint => if String.eqb mint "" then acc else set_add mint acc
                 | None => acc
                 end) l init in
  (NoDup init -> NoDup collected) /\
  forall x, In x collected <-> In x init \/ (x <> "" /\ exists a, In a l /\ mintOf a = Some x).
Proof.
  revert init. induction l as [| a l IH]; intros init; cbn [fold_left].
  - split; [trivial |]. intros x. split; [now left | intros [H | (_ & a & [] & _)]; exact H].
  - destruct (IH (match mintOf a with
                  | Some mint => if String.eqb mint "" then init else set_add mint init
                  | None => init
                  end)) as (Hnd & Hin).
    split.
    + intros Hinit. apply Hnd.
      destruct (mintOf a) as [mint |]; [| exact Hinit].
      destruct (String.eqb mint ""); [exact Hinit | now apply set_add_NoDup].
    + intros x. rewrite Hin. clear Hin Hnd IH.
      destruct (mintOf a) as [mint |] eqn:Hm.
      * destruct (String.eqb_spec mint "") as [-> | Hne].
        -- split.
           ++ intros [H | (Hx & b & Hb & Hmb)]; [now left |]. right. split; [exact Hx |].
              exists b. split; [now right | exact Hmb].
           ++ intros [H | (Hx & b & [<- | Hb] & Hmb)]; [now left | congruence |].
              right. split; [exact Hx |]. now exists b.
        -- rewrite set_add_spec. split.
           ++ intros [[-> | H] | (Hx & b & Hb & Hmb)].
              ** right. split; [exact Hne |]. exists a. split; [now left | exact Hm].
              ** now left.
              ** right. split; [exact Hx |]. exists b. split; [now right | exact Hmb].
           ++ intros [H | (Hx & b & [<- | Hb] & Hmb)].
              ** left. now right.
              ** left. left. congruence.
              ** right. split; [exact Hx |]. now exists b.
      * split.
        -- intros [H | (Hx & b & Hb & Hmb)]; [now left |]. right. split; [exact Hx |].
           exists b. split; [now right | exact Hmb].
        -- intros [H | (Hx & b & [<- | Hb] & Hmb)]; [now left | congruence |].
           right. split; [exact Hx |]. now exists b.
Qed.

(** X7. [extractMintAddresses] returns every non-empty mint of the token
    transfers and of the account data, and nothing else, each once. *)
Theorem extractMintAddresses_distinct_mints (enhancedTx : EnhancedTx) :
  NoDup (extractMintAddresses enhancedTx) /\
  forall mint,
    In mint (extractMintAddresses enhancedTx) <->
    mint <> "" /\
    ((exists transfers transfer,
        tx_tokenTransfers enhancedTx = Some transfers /\
        In transfer transfers /\ tt_mint transfer = Some mint) \/
     (exists accounts,
        tx_accountData enhancedTx = Some accounts /\ In (Some mint) accounts)).
Proof.
  unfold extractMintAddresses.
  set (fromTransfers :=
         match tx_tokenTransfers enhancedTx with
         | Some transfers =>
             fold_left (fun acc transfer =>
                          match tt_mint transfer with
                          | Some mint => if String.eqb mint "" then acc else set_add mint acc
                          | None => acc
                          end) transfers []
         | None => []
         end).
  assert (Hfrom : NoDup fromTransfers /\
                  forall mint, In mint fromTransfers <->
                    mint <> "" /\ exists transfers transfer,
                      tx_tokenTransfers enhancedTx = Some transfers /\
                      In transfer transfers /\ tt_mint transfer = Some mint).
  { subst fromTransfers. destruct (tx_tokenTransfers enhancedTx) as [transfers |].
    - destruct (collect_mints tt_mint transfers []) as (Hnd & Hin).
      split; [apply Hnd; constructor |].
      intros mint. rewrite (Hin mint). split.
      + intros [[] | (Hne & t & Ht & Hm)]. split; [exact Hne |]. now exists transfers, t.
      + intros (Hne & ts & t & [= <-] & Ht & Hm). right. split; [exact Hne |]. now exists t.
    - split; [constructor |]. intros mint. split; [intros [] |].
      intros (_ & ts & t & Hts & _). discriminate. }
  destruct Hfrom as (Hnd0 & Hin0).
  destruct (tx_accountData enhancedTx) as [accounts |].
  - destruct (collect_mints (fun o : option string => o) accounts fromTransfers)
      as (Hnd & Hin).
    split; [now apply Hnd |].
    intros mint. rewrite (Hin mint), Hin0. split.
    + intros [(Hne & H) | (Hne & a & Ha & ->)]; (split; [exact Hne |]).
      * now left.
      * right. now exists accounts.
    + intros (Hne & [H | (acc & [= <-] & Ha)]).
      * left. now split.
      * right. split; [exact Hne |]. now exists (Some mint).
  - split; [exact Hnd0 |]. intros mint. rewrite Hin0. split.
    + intros (Hne & H). split; [exact Hne | now left].
    + intros (Hne & [H | (acc & Hacc & _)]); [now split | discriminate].
Qed.

Lemma extractTokenTransfers_spec st enhancedTx transfers a :
  In a (extractTokenTransfers st enhancedTx transfers) <->
  exists transfer tokenAmount,
    In transfer transfers /\ tt_tokenAmount transfer = Some tokenAmount /\
    tokenAmount <> "" /\ tokenAmount <> "0" /\
    a = tokenTransferAmount st enhancedTx transfer tokenAmount.
Proof.
  unfold extractTokenTransfers. rewrite <- list_elem_of_In, list_elem_of_omap. split.
  - intros (transfer & Hin & Hsome). apply list_elem_of_In in Hin.
    destruct (tt_tokenAmount transfer) as [tokenAmount |] eqn:Hamount; [| discriminate].
    destruct (String.eqb_spec tokenAmount ""); [discriminate |].
    destruct (String.eqb_spec tokenAmount "0"); [discriminate |].
    cbn in Hsome. injection Hsome as <-. now exists transfer, tokenAmount.
  - intros (transfer & tokenAmount & Hin & Hamount & Hne & H0 & ->).
    exists transfer. split; [now apply list_elem_of_In |].
    rewrite Hamount. apply String.eqb_neq in Hne, H0. now rewrite Hne, H0.
Qed.

(** X8. What [extractTokenAmounts] records: one element for each token
    transfer whose amount is present, not empty and not ['0'] (the others
    are skipped), and, only when none of those elements is a reference-asset
    transfer, one element for each native transfer that
    [nativeTransferAmount] keeps. *)
Theorem extractTokenAmounts_recorded (st : Backend) (enhancedTx : EnhancedTx) (a : TokenAmount) :
  let fromTokens :=
    match tx_tokenTransfers enhancedTx with
    | Some transfers => extractTokenTransfers st enhancedTx transfers
    | None => []
    end in
  In a (extractTokenAmounts st enhancedTx) <->
  (exists transfers transfer tokenAmount,
     tx_tokenTransfers enhancedTx = Some transfers /\
     In transfer transfers /\ tt_tokenAmount transfer = Some tokenAmount /\
     tokenAmount <> "" /\ tokenAmount <> "0" /\
     a = tokenTransferAmount st enhancedTx transfer tokenAmount) \/
  (existsb ta_isSOL fromTokens = false /\
   exists natives native,
     tx_nativeTransfers enhancedTx = Some natives /\
     In native natives /\ nativeTransferAmount native = Some a).
Proof.
  intros fromTokens.
  assert (Htokens : In a fromTokens <->
            exists transfers transfer tokenAmount,
              tx_tokenTransfers enhancedTx = Some transfers /\
              In transfer transfers /\ tt_tokenAmount transfer = Some tokenAmount /\
              tokenAmount <> "" /\ tokenAmount <> "0" /\
              a = tokenTransferAmount st enhancedTx transfer tokenAmount).
  { subst fromTokens. destruct (tx_tokenTransfers enhancedTx) as [transfers |].
    - rewrite extractTokenTransfers_spec. split.
      + intros (t & amount & H). now exists transfers, t, amount.
      + intros (ts & t & amount & [= <-] & H). now exists t, amount.
    - split; [intros [] |]. intros (ts & t & amount & Hts & _). discriminate. }
  unfold extractTokenAmounts. fold fromTokens.
  destruct (tx_nativeTransfers enhancedTx) as [natives |].
  - destruct (existsb ta_isSOL fromTokens) eqn:Hsol; cbn [negb].
    + rewrite Htokens. split; [now left |].
      intros [H | (Hfalse & _)]; [exact H | discriminate].
    + rewrite in_app_iff, Htokens, <- list_elem_of_In, list_elem_of_omap. split.
      * intros [H | (native & Hin & Hsome)]; [now left |].
        right. split; [reflexivity |]. exists natives, native.
        split; [reflexivity |]. split; [now apply list_elem_of_In | exact Hsome].
      * intros [H | (_ & ns & native & [= <-] & Hin & Hsome)]; [now left |].
        right. exists native. split; [now apply list_elem_of_In | exact Hsome].
  - rewrite Htokens. split; [now left |].
    intros [H | (_ & ns & native & Hns & _)]; [exact H | discriminate].
Qed.

(** X9. For a token transfer of an asset other than the reference asset,
    the recorded direction is the one [determineBuySell] computes, not its
    opposite, and no SOL amount is attached. *)
Theorem other_asset_direction_kept
    (st : Backend) (enhancedTx : EnhancedTx) (transfer : TokenTransfer) (tokenAmount : string) :
  tt_mint transfer <> Some SOL_MINT ->
  let recorded := tokenTransferAmount st enhancedTx transfer tokenAmount in
  ta_isSOL recorded = false /\
  ta_type recorded = directionOf (determineBuySell st transfer enhancedTx) /\
  ta_solAmount recorded = JsNumber.zero.
Proof.
  intros Hmint recorded.
  assert (Hsol : strict_eq (tt_mint transfer) SOL_MINT = false).
  { destruct (tt_mint transfer) as [m |]; [| reflexivity]. cbn.
    apply String.eqb_neq. congruence. }
  subst recorded. unfold tokenTransferAmount. cbn [ta_isSOL ta_type ta_solAmount].
  rewrite Hsol. repeat split.
Qed.

(** A token received by the tracked wallet is recorded as a BUY. *)
Lemma other_asset_direction_kept_witness :
  let wallet := "7xKXtg2CW87d97TXJSDpbD5jBkheTqA83TZRuJosgAsU" in
  let transfer := mkTokenTransfer (Some "FooMint") (Some "1234.5") (Some "Fungible")
                                  (Some "PoolAccount") (Some wallet) in
  let tx := mkEnhancedTx (Some "SWAP") (Some [transfer]) None None in
  ta_type (tokenTransferAmount (watching wallet) tx transfer "1234.5") = BUY.
Proof.
  intros wallet transfer tx.
  destruct (other_asset_direction_kept (watching wallet) tx transfer "1234.5")
    as (_ & Htype & _); [discriminate |].
  rewrite Htype. vm_compute. reflexivity.
Defined.

(** X10. [determineBuySell] answers SELL (false) exactly when a tracked
    wallet is on the sending side and either none is on the receiving side
    or the transaction kind is 'SWAP'; in every other case, also when no
    tracked wallet is involved at all, it answers BUY. *)
Theorem determineBuySell_sell_cases
    (st : Backend) (transfer : TokenTransfer) (enhancedTx : EnhancedTx) :
  let isReceiving := existsb (involves (tt_toUserAccount transfer)) (trackedWallets st) in
  let isSending := existsb (involves (tt_fromUserAccount transfer)) (trackedWallets st) in
  determineBuySell st transfer enhancedTx = false <->
  isSending = true /\ (isReceiving = false \/ tx_type enhancedTx = Some "SWAP").
Proof.
  intros isReceiving isSending. unfold determineBuySell.
  fold isReceiving. fold isSending.
  assert (Hswap : strict_eq (tx_type enhancedTx) "SWAP" = true
                  <-> tx_type enhancedTx = Some "SWAP").
  { destruct (tx_type enhancedTx) as [t |]; cbn.
    - rewrite String.eqb_eq. split; congruence.
    - split; discriminate. }
  destruct isReceiving, isSending; cbn [andb negb];
    destruct (strict_eq (tx_type enhancedTx) "SWAP") eqn:E; cbn;
    intuition (try discriminate; try congruence).
Qed.

(** X11. When exactly one side of a transfer is a tracked wallet,
    [determineBuySellNative] gives the negation of [determineBuySell] for
    the same accounts, so the direction that [extractTokenAmounts] records
    for a reference-asset token transfer is the one [determineBuySellNative]
    names. *)
Theorem determineBuySellNative_negates
    (st : Backend) (transfer : TokenTransfer) (native : NativeTransfer)
    (enhancedTx : EnhancedTx) (tokenAmount : string) :
  nt_fromUserAccount native = tt_fromUserAccount transfer ->
  nt_toUserAccount native = tt_toUserAccount transfer ->
  existsb (involves (tt_toUserAccount transfer)) (trackedWallets st)
  <> existsb (involves (tt_fromUserAccount transfer)) (trackedWallets st) ->
  determineBuySellNative st native = negb (determineBuySell st transfer enhancedTx) /\
  (tt_mint transfer = Some SOL_MINT ->
   ta_type (tokenTransferAmount st enhancedTx transfer tokenAmount)
   = directionOf (determineBuySellNative st native)).
Proof.
  intros Hfrom Hto Hxor.
  assert (Hneg : determineBuySellNative st native
                 = negb (determineBuySell st transfer enhancedTx)).
  { unfold determineBuySellNative, determineBuySell. rewrite Hfrom, Hto.
    destruct (existsb (involves (tt_toUserAccount transfer)) (trackedWallets st)),
             (existsb (involves (tt_fromUserAccount transfer)) (trackedWallets st));
      cbn; congruence. }
  split; [exact Hneg |].
  intros Hmint. rewrite Hneg. unfold tokenTransferAmount. cbn [ta_type].
  rewrite Hmint. cbn [strict_eq]. rewrite String.eqb_refl.
  destruct (determineBuySell st transfer enhancedTx); reflexivity.
Qed.

(** The tracked wallet receives SOL: a SELL for both. *)
Lemma determineBuySellNative_negates_witness :
  let wallet := "7xKXtg2CW87d97TXJSDpbD5jBkheTqA83TZRuJosgAsU" in
  let transfer := mkTokenTransfer (Some SOL_MINT) (Some "2000000000") None
                                  (Some "PoolAccount") (Some wallet) in
  let native := mkNativeTransfer (Some "2000000000") (Some "PoolAccount") (Some wallet) in
  let tx := mkEnhancedTx (Some "SWAP") (Some [transfer]) None None in
  determineBuySellNative (watching wallet) native = false /\
  determineBuySell (watching wallet) transfer tx = true.
Proof.
  intros wallet transfer native tx.
  destruct (determineBuySellNative_negates (watching wallet) transfer native tx
              "2000000000") as (Hneg & _);
    [ reflexivity | reflexivity | vm_compute; discriminate | ].
  split; [rewrite Hneg |]; vm_compute; reflexivity.
Defined.

End Extraction.

(** * Further properties of the amount formatting *)

Section FormatShape.
Import JsString JsNumber Format HeliusRest.

Lemma append_assoc (s t u : string) : (s +:+ t) +:+ u = s +:+ (t +:+ u).
Proof.
  induction s as [| c s IH]; [reflexivity |].
  change ((String c s +:+ t) +:+ u) with (String c ((s +:+ t) +:+ u)).
  change (String c s +:+ (t +:+ u)) with (String c (s +:+ (t +:+ u))).
  now rewrite IH.
Qed.

Lemma formatAmountWithUnits_suffix (x : number) :
  exists body, formatAmountWithUnits x = body +:+ " tokens".
Proof.
  unfold formatAmountWithUnits.
  destruct (geb x (of_Z 1000000000)).
  { exists (toFixed (div x (of_Z 1000000000)) 2 +:+ "B"). now rewrite append_assoc. }
  destruct (geb x (of_Z 1000000)).
  { exists (toFixed (div x (of_Z 1000000)) 2 +:+ "M"). now rewrite append_assoc. }
  destruct (geb x (of_Z 1000)).
  { exists (toFixed (div x (of_Z 1000)) 2 +:+ "K"). now rewrite append_assoc. }
  destruct (geb x (of_Z 1)); eexists; reflexivity.
Qed.

(** X12. [formatTokenAmount] always returns either ['N/A'] or a text that
    ends in [' tokens'].  It returns ['N/A'] for a missing or empty amount
    and, whatever the precision, for an amount without a decimal point that
    [BigInt] does not read as an integer. *)
Theorem formatTokenAmount_result_shape (rawAmount : option string) (decimals : Decimals) :
  (formatTokenAmount rawAmount decimals = "N/A" \/
   exists body, formatTokenAmount rawAmount decimals = body +:+ " tokens") /\
  (rawAmount = None \/ rawAmount = Some "" ->
   formatTokenAmount rawAmount decimals = "N/A") /\
  (forall amountStr,
     rawAmount = Some amountStr -> includes amountStr "." = false ->
     BigInt_of_string amountStr = None ->
     formatTokenAmount rawAmount decimals = "N/A").
Proof.
  split; [| split].
  - unfold formatTokenAmount.
    destruct rawAmount as [amountStr |]; [| now left].
    destruct (String.eqb amountStr ""); [now left |].
    destruct (includes amountStr ".").
    + destruct (parseFloat amountStr) eqn:Hp; try (right; apply formatAmountWithUnits_suffix).
      now left.
    + destruct (BigInt_of_string amountStr); [| now left].
      destruct (BigInt_of_number _); [| now left].
      destruct (_ =? 0)%Z; [now left |].
      right. apply formatAmountWithUnits_suffix.
  - intros [-> | ->]; reflexivity.
  - intros amountStr -> Hdot Hbig. unfold formatTokenAmount.
    rewrite Hdot, Hbig. destruct (String.eqb amountStr ""); reflexivity.
Qed.

(** X13. For an amount that contains a decimal point the precision
    argument is ignored: the amount is taken as already scaled, and the text
    is that of [formatAmountWithUnits] on the parsed Number, or ['N/A'] when
    it does not parse. *)
Theorem formatTokenAmount_decimal_amount
    (amountStr : string) (decimals decimals' : Decimals) :
  includes amountStr "." = true ->
  formatTokenAmount (Some amountStr) decimals
  = formatTokenAmount (Some amountStr) decimals' /\
  (parseFloat amountStr = NaN -> formatTokenAmount (Some amountStr) decimals = "N/A") /\
  (parseFloat amountStr <> NaN ->
   formatTokenAmount (Some amountStr) decimals
   = formatAmountWithUnits (parseFloat amountStr)).
Proof.
  intros Hdot. unfold formatTokenAmount. rewrite Hdot.
  assert (Hne : String.eqb amountStr "" = false).
  { destruct amountStr; [discriminate | reflexivity]. }
  rewrite Hne. split; [reflexivity |]. split.
  - intros ->. reflexivity.
  - intros Hnan. destruct (parseFloat amountStr); try reflexivity. now destruct Hnan.
Qed.

(** '1234.5' is 1.23K tokens under any precision. *)
Lemma formatTokenAmount_decimal_amount_witness :
  formatTokenAmount (Some "1234.5") (DecString "Fungible") = "1.23K tokens".
Proof.
  destruct (formatTokenAmount_decimal_amount "1234.5" (DecString "Fungible") (DecNumber 9))
    as (_ & _ & Hparsed); [reflexivity |].
  rewrite Hparsed; [vm_compute; reflexivity | vm_compute; discriminate].
Defined.

Lemma geb_parseFloat_number (x y : number) : geb (parseFloat_number x) y = geb x y.
Proof. destruct x as [[] | | |]; destruct y as [[] | [] | | []]; reflexivity. Qed.

(** X14. [formatSOLAmount] on an amount of lamports gives the text that
    [formatSOLAmountDirect] gives on that amount divided by 10^9: the two
    functions share their buckets (thousands with two decimals and 'K SOL'
    from 1000, three decimals from 1, four from 0.001, six below). *)
Theorem formatSOLAmount_is_direct_on_lamports (lamports : string) :
  formatSOLAmount lamports
  = formatSOLAmountDirect (div (parseFloat lamports) (of_Z 1000000000)).
Proof.
  unfold formatSOLAmount, formatSOLAmountDirect. cbv zeta.
  rewrite !geb_parseFloat_number.
  destruct (div (parseFloat lamports) (of_Z 1000000000)) as [s | s | | s m e] eqn:Hx;
    reflexivity.
Qed.

End FormatShape.

(** * Further properties of the processing of a frame *)

Section Frames.
Import JsString TransactionFilters Helius.

(** A view of the effects log that ignores socket closes and timers is not
    changed by a rotation. *)
Lemma rotateApiKeyByUsage_view {A} (f : Effect -> option A) (st : Backend) :
  (forall code reason, f (WsClose code reason) = None) ->
  (forall task delay, f (SetTimeout task delay) = None) ->
  omap f (effects (rotateApiKeyByUsage st)) = omap f (effects st).
Proof.
  intros Hclose Htimer.
  unfold rotateApiKeyByUsage, rotate, reconnectWithNewApiKey.
  cbn [maxCallsPerRotation callsPerKey isConnected websocket set_key].
  destruct (_ <=? _)%nat; [| reflexivity].
  destruct (isConnected st); [destruct (websocket st) |]; cbn [effects emit set_key];
    rewrite ?omap_app; cbn; rewrite ?Hclose, ?Htimer, ?app_nil_r; reflexivity.
Qed.

Lemma getEnhancedTransaction_effects signature response st :
  exists key,
    effects (snd (getEnhancedTransaction signature response st))
    = (effects (rotateApiKeyByUsage st) ++ [HttpEnhancedTransaction key signature])%list.
Proof.
  unfold getEnhancedTransaction, fetchEnhancedTransactionDirect.
  destruct response as [[| first rest] | |]; eexists; reflexivity.
Qed.

Lemma getEnhancedTransaction_requests signature response st :
  enhancedRequests (effects (snd (getEnhancedTransaction signature response st)))
  = (enhancedRequests (effects st) ++ [signature])%list.
Proof.
  destruct (getEnhancedTransaction_effects signature response st) as (key & ->).
  unfold enhancedRequests. rewrite omap_app.
  rewrite rotateApiKeyByUsage_view by reflexivity. reflexivity.
Qed.

Lemma getAssetInfo_effects now mints response st :
  snd (getAssetInfo now mints response st) = st \/
  exists key,
    effects (snd (getAssetInfo now mints response st))
    = (effects (rotateApiKeyByUsage st) ++ [HttpAssetBatch key mints])%list /\
    onTransactionReceived (snd (getAssetInfo now mints response st))
    = onTransactionReceived st /\
    trackedWallets (snd (getAssetInfo now mints response st)) = trackedWallets st.
Proof.
  destruct (rotateApiKeyByUsage_keeps st) as (_ & _ & Hw & Hh & _).
  unfold getAssetInfo, fetchAssetInfoDirect.
  destruct (_ =? _)%nat; [now left |]. right.
  destruct response; eexists; cbn [snd effects emit set_tokenInfoCache
    onTransactionReceived trackedWallets]; auto.
Qed.

(** What [classifyAndNotify] can do: nothing, or hand over one event that
    the filter admits. *)
Lemma classifyAndNotify_cases now signature enhancedTx mintAddresses assetInfoArray st :
  classifyAndNotify now signature enhancedTx mintAddresses assetInfoArray st = st \/
  exists td,
    classifyAndNotify now signature enhancedTx mintAddresses assetInfoArray st
    = notifyTransaction td st /\
    shouldShowTransaction (Some td) = true.
Proof.
  unfold classifyAndNotify. cbv zeta.
  destruct (firstValidNonSOLToken mintAddresses 0 assetInfoArray) as [primaryToken |];
    [| now left].
  destruct (List.filter ta_isSOL (extractTokenAmounts st enhancedTx)) as [| first rest].
  - match goal with
    | |- context [shouldShowTransaction (Some ?td)] =>
        destruct (shouldShowTransaction (Some td)) eqn:Hshow; [right; now exists td | now left]
    end.
  - destruct (JsNumber.ltb _ _); [now left |].
    destruct (userInvolvedInTransaction _); [| now left].
    match goal with
    | |- context [shouldShowTransaction (Some ?td)] =>
        destruct (shouldShowTransaction (Some td)) eqn:Hshow; [right; now exists td | now left]
    end.
Qed.

Lemma notifyTransaction_view {A} (f : Effect -> option A) td st :
  omap f (effects (notifyTransaction td st))
  = (omap f (effects st)
     ++ if onTransactionReceived st
        then match f (Notify td) with Some x => [x] | None => [] end
        else [])%list.
Proof.
  unfold notifyTransaction. destruct (onTransactionReceived st); cbn [effects emit].
  - rewrite omap_app. cbn. destruct (f (Notify td)); reflexivity.
  - now rewrite app_nil_r.
Qed.

(** What one frame adds to the three views of the log. *)
Lemma processTransactionUpdate_delta now data enhanced batch st :
  let st' := processTransactionUpdate now data enhanced batch st in
  if strict_eq (fr_method data) "logsNotification"
     && negb (match trackedWallets st with [] => true | _ => false end)
     && truthy (fr_signature data)
  then
    exists signature events batches,
      fr_signature data = Some signature /\
      notified (effects st') = (notified (effects st) ++ events)%list /\
      enhancedRequests (effects st') = (enhancedRequests (effects st) ++ [signature])%list /\
      assetBatchRequests (effects st') = (assetBatchRequests (effects st) ++ batches)%list /\
      (length events <= 1)%nat /\ (length batches <= 1)%nat /\
      (onTransactionReceived st = false -> events = [])
  else st' = st.
Proof.
  cbv zeta. unfold processTransactionUpdate.
  destruct (strict_eq (fr_method data) "logsNotification"); [| reflexivity].
  destruct (trackedWallets st); [reflexivity |].
  destruct (fr_signature data) as [signature |]; [| reflexivity].
  cbn [andb negb truthy].
  destruct (String.eqb signature "") eqn:Hempty; [reflexivity |].
  cbn [negb]. exists signature.
  pose proof (getEnhancedTransaction_requests signature enhanced st) as He.
  pose proof (getEnhancedTransaction_keeps signature enhanced st) as (Hn & Hb & _ & _ & Hh).
  destruct (getEnhancedTransaction signature enhanced st) as [enhancedTx st1].
  cbn [fst snd] in *.
  assert (Hfallback :
    exists events batches,
      Some signature = Some signature /\
      notified (effects (handleFallbackTransaction now (Some signature) st1))
      = (notified (effects st) ++ events)%list /\
      enhancedRequests (effects (handleFallbackTransaction now (Some signature) st1))
      = (enhancedRequests (effects st) ++ [signature])%list /\
      assetBatchRequests (effects (handleFallbackTransaction now (Some signature) st1))
      = (assetBatchRequests (effects st) ++ batches)%list /\
      (length events <= 1)%nat /\ (length batches <= 1)%nat /\
      (onTransactionReceived st = false -> events = [])).
  { unfold handleFallbackTransaction. rewrite Hempty.
    exists (if onTransactionReceived st1 then [fallbackTransactionData now signature] else []), [].
    split; [reflexivity |].
    unfold notified, enhancedRequests, assetBatchRequests in *.
    rewrite !notifyTransaction_view, Hn, He, Hb. cbn [length].
    rewrite Hh. destruct (onTransactionReceived st); cbn; rewrite ?app_nil_r;
      repeat split; auto; discriminate. }
  destruct enhancedTx as [tx |]; [| exact Hfallback].
  destruct (tx_type tx) as [type |]; [| exact Hfallback].
  clear Hfallback.
  destruct (negb (String.eqb type "SWAP") && negb (includes (toLowerCase type) "swap")).
  { exists [], []. rewrite !app_nil_r. repeat split; auto. }
  destruct (extractMintAddresses tx) as [| mint mints].
  { exists [], []. rewrite !app_nil_r. repeat split; auto. }
  pose proof (getAssetInfo_notified now (mint :: mints) batch st1) as Han.
  assert (Hassets :
    exists batches,
      assetBatchRequests (effects (snd (getAssetInfo now (mint :: mints) batch st1)))
      = (assetBatchRequests (effects st1) ++ batches)%list /\
      (length batches <= 1)%nat /\
      enhancedRequests (effects (snd (getAssetInfo now (mint :: mints) batch st1)))
      = enhancedRequests (effects st1) /\
      onTransactionReceived (snd (getAssetInfo now (mint :: mints) batch st1))
      = onTransactionReceived st1).
  { destruct (getAssetInfo_effects now (mint :: mints) batch st1) as [-> | (key & Heff & Hh' & _)].
    - exists []. rewrite app_nil_r. auto.
    - exists [mint :: mints]. rewrite Heff.
      unfold assetBatchRequests, enhancedRequests.
      rewrite !omap_app, !rotateApiKeyByUsage_view by reflexivity.
      cbn. rewrite app_nil_r. auto. }
  destruct Hassets as (batches & Hab & Hlen & Hae & Hah).
  destruct (getAssetInfo now (mint :: mints) batch st1) as [assetInfoArray st2].
  cbn [snd] in *.
  destruct (classifyAndNotify_cases now signature tx (mint :: mints) assetInfoArray st2)
    as [-> | (td & -> & _)].
  - exists [], batches. rewrite app_nil_r, Han, Hn, Hae, He, Hab, Hb.
    repeat split; auto.
  - exists (if onTransactionReceived st2 then [td] else []), batches.
    unfold notified, enhancedRequests, assetBatchRequests in *.
    rewrite !notifyTransaction_view, Han, Hn, Hae, He, Hab, Hb.
    rewrite Hah, Hh.
    destruct (onTransactionReceived st); cbn; rewrite ?app_nil_r;
      repeat split; auto; discriminate.
Qed.

(** X15. One frame costs at most one call of each kind and yields at most
    one notification: [processTransactionUpdate] sends at most one
    transaction-detail request and at most one asset-batch request
    upstream, and hands at most one event to the callback; without a detail
    request there is no batch request and no event. *)
Theorem processTransactionUpdate_at_most_one
    (now : Z) (data : Frame) (enhanced : EnhancedResponse) (batch : BatchResponse)
    (st : Backend) :
  let st' := processTransactionUpdate now data enhanced batch st in
  exists events details batches,
    notified (effects st') = (notified (effects st) ++ events)%list /\
    enhancedRequests (effects st') = (enhancedRequests (effects st) ++ details)%list /\
    assetBatchRequests (effects st') = (assetBatchRequests (effects st) ++ batches)%list /\
    (length events <= 1)%nat /\ (length details <= 1)%nat /\ (length batches <= 1)%nat /\
    (details = [] -> events = [] /\ batches = []).
Proof.
  cbv zeta.
  pose proof (processTransactionUpdate_delta now data enhanced batch st) as Hdelta.
  cbv zeta in Hdelta.
  destruct (strict_eq (fr_method data) "logsNotification"
            && negb (match trackedWallets st with [] => true | _ => false end)
            && truthy (fr_signature data)).
  - destruct Hdelta as (signature & events & batches & _ & Hn & He & Hb & Hle & Hlb & _).
    exists events, [signature], batches. cbn. repeat split; auto; discriminate.
  - rewrite Hdelta. exists [], [], []. rewrite !app_nil_r. cbn. repeat split; auto.
Qed.

(** X16. A frame is acted upon exactly when it is a 'logsNotification', at
    least one wallet is tracked and the frame carries a signature: then one
    transaction-detail request for that signature goes upstream; otherwise
    the backend is left untouched, so that no upstream call is made. *)
Theorem processTransactionUpdate_acts_on
    (now : Z) (data : Frame) (enhanced : EnhancedResponse) (batch : BatchResponse)
    (st : Backend) :
  let acts := strict_eq (fr_method data) "logsNotification"
              && negb (match trackedWallets st with [] => true | _ => false end)
              && truthy (fr_signature data) in
  let st' := processTransactionUpdate now data enhanced batch st in
  (acts = false -> st' = st) /\
  (acts = true ->
   exists signature,
     fr_signature data = Some signature /\
     enhancedRequests (effects st') = (enhancedRequests (effects st) ++ [signature])%list).
Proof.
  cbv zeta.
  pose proof (processTransactionUpdate_delta now data enhanced batch st) as Hdelta.
  cbv zeta in Hdelta.
  destruct (strict_eq (fr_method data) "logsNotification"
            && negb (match trackedWallets st with [] => true | _ => false end)
            && truthy (fr_signature data)).
  - split; [discriminate |]. intros _.
    destruct Hdelta as (signature & events & batches & Hs & _ & He & _).
    now exists signature.
  - split; [intros _; exact Hdelta | discriminate].
Qed.

(** With no wallet tracked a notification changes nothing. *)
Lemma processTransactionUpdate_acts_on_witness :
  processTransactionUpdate 1000 (mkFrame (Some "logsNotification") (Some "5sig"))
    EnhancedError BatchError constructor
  = constructor.
Proof.
  destruct (processTransactionUpdate_acts_on 1000
              (mkFrame (Some "logsNotification") (Some "5sig"))
              EnhancedError BatchError constructor) as (Hidle & _).
  apply Hidle. reflexivity.
Defined.

(** X17. While no handler is registered, [processTransactionUpdate] hands
    over nothing: the events are dropped without any trace, although the
    upstream calls are made all the same. *)
Theorem processTransactionUpdate_without_handler
    (now : Z) (data : Frame) (enhanced : EnhancedResponse) (batch : BatchResponse)
    (st : Backend) :
  onTransactionReceived st = false ->
  notified (effects (processTransactionUpdate now data enhanced batch st))
  = notified (effects st).
Proof.
  intros Hnone.
  pose proof (processTransactionUpdate_delta now data enhanced batch st) as Hdelta.
  cbv zeta in Hdelta.
  destruct (strict_eq (fr_method data) "logsNotification"
            && negb (match trackedWallets st with [] => true | _ => false end)
            && truthy (fr_signature data)).
  - destruct Hdelta as (signature & events & batches & _ & Hn & _ & _ & _ & _ & Hev).
    rewrite Hn, (Hev Hnone). apply app_nil_r.
  - now rewrite Hdelta.
Qed.

(** A failed enrichment with no handler registered: the request is sent,
    the fallback event goes nowhere. *)
Lemma processTransactionUpdate_without_handler_witness :
  let st := set_trackedWallets ["7xKXtg2CW87d97TXJSDpbD5jBkheTqA83TZRuJosgAsU"] constructor in
  let st' := processTransactionUpdate 1000
               (mkFrame (Some "logsNotification") (Some "5sig"))
               EnhancedError BatchError st in
  notified (effects st') = [] /\ enhancedRequests (effects st') = ["5sig"].
Proof.
  intros st st'. split.
  - subst st'. rewrite (processTransactionUpdate_without_handler 1000 _ _ _ st); reflexivity.
  - vm_compute. reflexivity.
Defined.

End Frames.

(** * Further properties of the classification *)

Section Classification.
Import JsString JsNumber TransactionFilters Helius.

Lemma firstValidNonSOLToken_spec mintAddresses start assetInfoArray primaryToken :
  firstValidNonSOLToken mintAddresses start assetInfoArray = Some primaryToken ->
  exists i,
    assetInfoArray !! i = Some primaryToken /\
    isValidNonSOLToken mintAddresses (start + i) primaryToken = true /\
    forall j other,
      (j < i)%nat -> assetInfoArray !! j = Some other ->
      isValidNonSOLToken mintAddresses (start + j) other = false.
Proof.
  revert start. induction assetInfoArray as [| asset rest IH]; intros start; cbn; [discriminate |].
  destruct (isValidNonSOLToken mintAddresses start asset) eqn:Hvalid.
  - intros [= <-]. exists 0%nat. rewrite Nat.add_0_r.
    split; [reflexivity |]. split; [exact Hvalid |]. intros j other Hj. lia.
  - intros Hrest. destruct (IH (S start) Hrest) as (i & Hi & Hv & Hbefore).
    exists (S i). split; [exact Hi |].
    split; [now rewrite Nat.add_succ_r |].
    intros [| j] other Hj Hother.
    + cbn in Hother. injection Hother as <-. now rewrite Nat.add_0_r.
    + rewrite Nat.add_succ_r. apply (Hbefore j other); [lia | exact Hother].
Qed.

Lemma admitted_not_blacklisted (td : TransactionData) :
  shouldShowTransaction (Some td) = true -> isTokenBlacklisted (td_token td) = false.
Proof.
  unfold shouldShowTransaction.
  destruct (isTokenBlacklisted (td_token td)); [| reflexivity].
  rewrite andb_false_r. destruct (_ && _ && _); discriminate.
Qed.

(** X18. Every event that steps 5 to 8 hand to the callback carries the
    signature of the frame, the type 'enhanced_transaction' and, as token,
    the symbol of the first asset of the batch that passes the primary-token
    test; its token is not on the blacklist; and it is either an event of
    direction 'UNKNOWN' with SOL amount 0 (the transaction moved no SOL) or
    an event of direction 'BUY' or 'SELL' whose SOL amount is not below
    0.001. *)
Theorem classifyAndNotify_event_shape
    (now : Z) (signature : string) (enhancedTx : EnhancedTx)
    (mintAddresses : list string) (assetInfoArray : list TokenInfo) (st : Backend) :
  exists events,
    notified (effects (classifyAndNotify now signature enhancedTx mintAddresses
                                         assetInfoArray st))
    = (notified (effects st) ++ events)%list /\
    Forall (fun td =>
      td_signature td = signature /\
      td_type td = Some "enhanced_transaction" /\
      (exists i asset,
         assetInfoArray !! i = Some asset /\
         isValidNonSOLToken mintAddresses i asset = true /\
         td_token td = Some (ti_symbol asset) /\
         forall j other, (j < i)%nat -> assetInfoArray !! j = Some other ->
                         isValidNonSOLToken mintAddresses j other = false) /\
      isTokenBlacklisted (td_token td) = false /\
      ((td_buySell td = Some "UNKNOWN" /\ td_solAmount td = Some zero) \/
       ((td_buySell td = Some "BUY" \/ td_buySell td = Some "SELL") /\
        exists total, td_solAmount td = Some total /\
                      ltb total (of_decimal 1 (-3)) = false))) events.
Proof.
  assert (Hnone : exists events : list TransactionData,
             notified (effects st) = (notified (effects st) ++ events)%list /\
             Forall (fun td =>
               td_signature td = signature /\
               td_type td = Some "enhanced_transaction" /\
               (exists i asset,
                  assetInfoArray !! i = Some asset /\
                  isValidNonSOLToken mintAddresses i asset = true /\
                  td_token td = Some (ti_symbol asset) /\
                  forall j other, (j < i)%nat -> assetInfoArray !! j = Some other ->
                                  isValidNonSOLToken mintAddresses j other = false) /\
               isTokenBlacklisted (td_token td) = false /\
               ((td_buySell td = Some "UNKNOWN" /\ td_solAmount td = Some zero) \/
                ((td_buySell td = Some "BUY" \/ td_buySell td = Some "SELL") /\
                 exists total, td_solAmount td = Some total /\
                               ltb total (of_decimal 1 (-3)) = false))) events).
  { exists []. split; [now rewrite app_nil_r | constructor]. }
  unfold classifyAndNotify. cbv zeta.
  destruct (firstValidNonSOLToken mintAddresses 0 assetInfoArray) as [primaryToken |] eqn:Hfirst;
    [| exact Hnone].
  apply firstValidNonSOLToken_spec in Hfirst as (i & Hi & Hvalid & Hbefore).
  cbn [Nat.add] in Hvalid, Hbefore.
  destruct (List.filter ta_isSOL (extractTokenAmounts st enhancedTx)) as [| first rest].
  - match goal with
    | |- context [shouldShowTransaction (Some ?td)] =>
        destruct (shouldShowTransaction (Some td)) eqn:Hshow; [| exact Hnone];
        exists (if onTransactionReceived st then [td] else []);
        split; [apply notifyTransaction_notified |];
        destruct (onTransactionReceived st); [| constructor];
        constructor; [| constructor]
    end.
    split; [reflexivity |]. split; [reflexivity |].
    split; [exists i, primaryToken; auto |].
    split; [exact (admitted_not_blacklisted _ Hshow) |].
    left. split; reflexivity.
  - destruct (ltb (totalSOLAmount (analyseSOL st first rest)) (of_decimal 1 (-3))) eqn:Hdust;
      [exact Hnone |].
    destruct (userInvolvedInTransaction (analyseSOL st first rest)); [| exact Hnone].
    match goal with
    | |- context [shouldShowTransaction (Some ?td)] =>
        destruct (shouldShowTransaction (Some td)) eqn:Hshow; [| exact Hnone];
        exists (if onTransactionReceived st then [td] else []);
        split; [apply notifyTransaction_notified |];
        destruct (onTransactionReceived st); [| constructor];
        constructor; [| constructor]
    end.
    split; [reflexivity |]. split; [reflexivity |].
    split; [exists i, primaryToken; auto |].
    split; [exact (admitted_not_blacklisted _ Hshow) |].
    right. cbn [td_buySell td_solAmount]. split.
    + destruct (isUserBuying (analyseSOL st first rest)); auto.
    + eexists. split; [reflexivity | exact Hdust].
Qed.

Lemma isValidNonSOLToken_length mintAddresses i asset :
  isValidNonSOLToken mintAddresses i asset = true ->
  (2 <= String.length (ti_symbol asset))%nat.
Proof.
  unfold isValidNonSOLToken.
  destruct (negb (String.eqb (ti_symbol asset) "")); [| discriminate].
  destruct (2 <=? String.length (trim (ti_symbol asset)))%nat eqn:Hlen.
  - intros _. apply Nat.leb_le in Hlen. pose proof (trim_length (ti_symbol asset)). lia.
  - rewrite andb_false_r. discriminate.
Qed.

Lemma long_unlisted_token_admitted (td : TransactionData) (token : string) :
  td_token td = Some token ->
  (2 <= String.length token)%nat ->
  isTokenBlacklisted (Some token) = false ->
  shouldShowTransaction (Some td) = true.
Proof.
  intros Htoken Hlen Hbl. unfold shouldShowTransaction. rewrite Htoken, Hbl.
  assert (Htruthy : truthy (Some token) = true).
  { unfold isTokenBlacklisted in Hbl.
    destruct (truthy (Some token)); [reflexivity | discriminate]. }
  assert (Hsol : strict_eq (Some token) "SOL" = false).
  { cbn. destruct (String.eqb_spec token "SOL") as [-> |]; [| reflexivity].
    vm_compute in Hbl. discriminate. }
  assert (Hwsol : strict_eq (Some token) "WSOL" = false).
  { cbn. destruct (String.eqb_spec token "WSOL") as [-> |]; [| reflexivity].
    vm_compute in Hbl. discriminate. }
  rewrite Htruthy, Hsol, Hwsol. apply Nat.leb_le in Hlen. rewrite Hlen. reflexivity.
Qed.

(** X19. The direction of an event comes from the main SOL transfer alone
    when one of its two accounts is a tracked wallet.  With a primary token
    that is not blacklisted and a main transfer (the one [largestOf] picks)
    that is not dust: if only the receiving account is tracked, the event is
    a 'SELL' for the receiving wallet; if only the sending account is
    tracked, it is a 'BUY' for the sending wallet; in both cases the SOL
    amount is the magnitude of the main transfer. *)
Theorem classifyAndNotify_main_transfer
    (now : Z) (signature : string) (enhancedTx : EnhancedTx)
    (mintAddresses : list string) (assetInfoArray : list TokenInfo) (st : Backend)
    (primaryToken : TokenInfo) (first : TokenAmount) (rest : list TokenAmount) :
  firstValidNonSOLToken mintAddresses 0 assetInfoArray = Some primaryToken ->
  isTokenBlacklisted (Some (ti_symbol primaryToken)) = false ->
  List.filter ta_isSOL (extractTokenAmounts st enhancedTx) = first :: rest ->
  let main := largestOf first rest in
  let fromTracked := truthy (ta_fromUserAccount main)
                     && has (trackedWallets st) (ta_fromUserAccount main) in
  let toTracked := truthy (ta_toUserAccount main)
                   && has (trackedWallets st) (ta_toUserAccount main) in
  ltb (abs (ta_solAmount main)) (of_decimal 1 (-3)) = false ->
  fromTracked <> toTracked ->
  exists td,
    classifyAndNotify now signature enhancedTx mintAddresses assetInfoArray st
    = notifyTransaction td st /\
    td_token td = Some (ti_symbol primaryToken) /\
    td_solAmount td = Some (abs (ta_solAmount main)) /\
    (toTracked = true ->
     td_buySell td = Some "SELL" /\ td_wallet td = ta_toUserAccount main) /\
    (fromTracked = true ->
     td_buySell td = Some "BUY" /\ td_wallet td = ta_fromUserAccount main).
Proof.
  intros Hfirst Hbl Hsol main fromTracked toTracked Hdust Hone.
  pose proof (firstValidNonSOLToken_spec _ _ _ _ Hfirst) as (i & _ & Hvalid & _).
  apply isValidNonSOLToken_length in Hvalid.
  unfold classifyAndNotify. cbv zeta. rewrite Hfirst, Hsol.
  unfold analyseSOL, analyseMainTransfer. fold main. fold fromTracked. fold toTracked.
  destruct fromTracked eqn:Hfrom, toTracked eqn:Hto; try congruence;
    cbn [orb andb negb userInvolvedInTransaction totalSOLAmount isUserBuying
         actualWalletInvolved];
    rewrite Hdust.
  - (* sending only *)
    match goal with
    | |- context [shouldShowTransaction (Some ?td)] =>
        rewrite (long_unlisted_token_admitted td (ti_symbol primaryToken) eq_refl Hvalid Hbl);
        exists td
    end.
    split; [reflexivity |]. split; [reflexivity |]. split; [reflexivity |].
    split; [discriminate |]. intros _. split; [reflexivity |].
    cbn [td_wallet].
    unfold fromTracked in Hfrom. apply andb_true_iff in Hfrom as (Htruthy & _).
    now rewrite Htruthy.
  - (* receiving only *)
    match goal with
    | |- context [shouldShowTransaction (Some ?td)] =>
        rewrite (long_unlisted_token_admitted td (ti_symbol primaryToken) eq_refl Hvalid Hbl);
        exists td
    end.
    split; [reflexivity |]. split; [reflexivity |]. split; [reflexivity |].
    split; [| discriminate]. intros _. split; [reflexivity |].
    cbn [td_wallet].
    unfold toTracked in Hto. apply andb_true_iff in Hto as (Htruthy & _).
    now rewrite Htruthy.
Qed.

(** The tracked wallet pays 2 SOL for FOO: a BUY for that wallet. *)
Lemma classifyAndNotify_main_transfer_witness :
  let wallet := "7xKXtg2CW87d97TXJSDpbD5jBkheTqA83TZRuJosgAsU" in
  let transfer := mkTokenTransfer (Some SOL_MINT) (Some "2000000000") None
                                  (Some wallet) (Some "PoolAccount") in
  let tx := mkEnhancedTx (Some "SWAP")
              (Some [ transfer;
                      mkTokenTransfer (Some "FooMint") (Some "1234.5") (Some "Fungible")
                                      (Some "PoolAccount") (Some wallet) ])
              None None in
  let st := watching wallet in
  exists td,
    classifyAndNotify 1000 "5sig" tx [SOL_MINT; "FooMint"]
      [mkTokenInfo "SOL" None None; mkTokenInfo "FOO" None None] st
    = notifyTransaction td st /\
    td_buySell td = Some "BUY" /\ td_wallet td = Some wallet.
Proof.
  intros wallet transfer tx st.
  destruct (classifyAndNotify_main_transfer 1000 "5sig" tx [SOL_MINT; "FooMint"]
              [mkTokenInfo "SOL" None None; mkTokenInfo "FOO" None None] st
              (mkTokenInfo "FOO" None None)
              (tokenTransferAmount st tx transfer "2000000000") [])
    as (td & Hrun & _ & _ & _ & Hbuy);
    [ reflexivity | reflexivity | vm_compute; reflexivity | vm_compute; reflexivity
    | vm_compute; discriminate | ].
  exists td. split; [exact Hrun |].
  destruct Hbuy as (Hdir & Hwallet); [vm_compute; reflexivity |].
  split; [exact Hdir |]. rewrite Hwallet. reflexivity.
Defined.

End Classification.

(** * Further properties of the wallet set and of the connection *)

Section WalletSet.
Import JsString Helius HeliusRest.

Lemma set_remove_spec (x y : string) (s : list string) :
  In y (set_remove x s) <-> In y s /\ y <> x.
Proof.
  unfold set_remove. rewrite filter_In. split.
  - intros (Hin & Hne). split; [exact Hin |]. intros ->.
    now rewrite String.eqb_refl in Hne.
  - intros (Hin & Hne). split; [exact Hin |].
    destruct (String.eqb_spec x y); [congruence | reflexivity].
Qed.

Lemma set_remove_absent (x : string) (s : list string) : ~ In x s -> set_remove x s = s.
Proof.
  induction s as [| y s IH]; intros Hnot; [reflexivity |].
  cbn. destruct (String.eqb_spec x y) as [-> | Hne].
  - destruct Hnot. now left.
  - cbn. f_equal. apply IH. intros H. apply Hnot. now right.
Qed.

Lemma set_remove_added (x : string) (s : list string) :
  ~ In x s -> set_remove x (set_add x s) = s.
Proof.
  intros Hnot. unfold set_add.
  destruct (existsb (String.eqb x) s) eqn:E.
  - apply existsb_exists in E as (y & Hy & Heq). apply String.eqb_eq in Heq. now subst.
  - unfold set_remove. rewrite List.filter_app. cbn. rewrite String.eqb_refl. cbn.
    rewrite app_nil_r. now apply set_remove_absent.
Qed.

Lemma existsb_eqb_In (x : string) (s : list string) :
  existsb (String.eqb x) s = true <-> In x s.
Proof.
  rewrite existsb_exists. split.
  - intros (y & Hy & Heq). apply String.eqb_eq in Heq. now subst.
  - intros H. exists x. split; [exact H | apply String.eqb_refl].
Qed.

(** X20. [addWallet] keeps the tracked set a set: with a valid address that
    is already tracked the set is unchanged, with a valid new address the
    address is appended after the others, and the set stays free of
    duplicates. *)
Theorem addWallet_keeps_set (walletAddress : string) (st : Backend) :
  validateWalletAddress walletAddress = true ->
  let wallets' := trackedWallets (snd (addWallet walletAddress st)) in
  (In walletAddress (trackedWallets st) -> wallets' = trackedWallets st) /\
  (~ In walletAddress (trackedWallets st) ->
   wallets' = (trackedWallets st ++ [walletAddress])%list) /\
  (NoDup (trackedWallets st) -> NoDup wallets').
Proof.
  intros Hvalid wallets'. subst wallets'.
  rewrite (addWallet_trackedWallets walletAddress st Hvalid).
  split; [| split].
  - intros Hin. unfold set_add. apply existsb_eqb_In in Hin. now rewrite Hin.
  - intros Hnot. unfold set_add.
    destruct (existsb (String.eqb walletAddress) (trackedWallets st)) eqn:E; [| reflexivity].
    apply existsb_eqb_In in E. contradiction.
  - apply set_add_NoDup.
Qed.

(** Adding the same address twice tracks it once. *)
Lemma addWallet_keeps_set_witness :
  let wallet := "7xKXtg2CW87d97TXJSDpbD5jBkheTqA83TZRuJosgAsU" in
  trackedWallets (snd (addWallet wallet (snd (addWallet wallet constructor)))) = [wallet].
Proof.
  intros wallet.
  destruct (addWallet_keeps_set wallet (snd (addWallet wallet constructor)))
    as (Hsame & _); [reflexivity |].
  rewrite Hsame; [reflexivity | now left].
Defined.

Lemma subscribe_all (wallets : list string) (st : Backend) :
  let st' := fold_left (fun s wallet => subscribeToWallet wallet s) wallets st in
  effects st' = (effects st ++ map WsSend wallets)%list /\
  trackedWallets st' = trackedWallets st /\
  isConnected st' = isConnected st /\ websocket st' = websocket st.
Proof.
  revert st. induction wallets as [| w ws IH]; intros st; cbn [fold_left map].
  - rewrite app_nil_r. auto.
  - destruct (IH (subscribeToWallet w st)) as (He & Hw & Hc & Hs).
    cbv zeta in *. rewrite He, Hw, Hc, Hs. cbn. rewrite <- app_assoc. auto.
Qed.

(** X21. When the socket opens, the backend is marked connected, the
    attempt counter is reset, and one subscription is sent for each tracked
    wallet, in the order of the set, and nothing else is sent. *)
Theorem onopen_subscribes_all (c : Connection) :
  let c' := onopen c in
  isConnected (conn_backend c') = true /\
  reconnectAttempts c' = 0%nat /\
  effects (conn_backend c')
  = (effects (conn_backend c) ++ map WsSend (trackedWallets (conn_backend c)))%list /\
  subscriptions (effects (conn_backend c'))
  = (subscriptions (effects (conn_backend c)) ++ trackedWallets (conn_backend c))%list /\
  trackedWallets (conn_backend c') = trackedWallets (conn_backend c).
Proof.
  cbv zeta. unfold onopen. cbn [conn_backend reconnectAttempts].
  unfold subscribeToTrackedWallets. cbn [trackedWallets set_connection].
  assert (Hsubs : forall ws : list string, subscriptions (map WsSend ws) = ws).
  { induction ws as [| w ws IH]; [reflexivity |]. cbn. unfold subscriptions in IH.
    now rewrite IH. }
  destruct (trackedWallets (conn_backend c)) as [| w ws] eqn:Hw.
  - cbn. rewrite !app_nil_r. auto.
  - destruct (subscribe_all (w :: ws)
                (set_connection (websocket (conn_backend c)) true (conn_backend c)))
      as (He & Ht & Hc & _).
    cbv zeta in *. rewrite He, Ht, Hc. cbn [effects set_connection isConnected trackedWallets].
    repeat split; auto.
    unfold subscriptions at 1. rewrite omap_app.
    fold (subscriptions (effects (conn_backend c))). fold (subscriptions (map WsSend (w :: ws))).
    now rewrite Hsubs.
Qed.

Lemma removeWallet_trackedWallets (walletAddress : string) (st : Backend) :
  trackedWallets (snd (fst (removeWallet walletAddress st)))
  = set_remove walletAddress (trackedWallets st).
Proof.
  unfold removeWallet.
  destruct (has (trackedWallets st) (Some walletAddress)) eqn:Hhas.
  - cbn [trackedWallets set_trackedWallets websocket].
    destruct (set_remove walletAddress (trackedWallets st)) eqn:Hrem;
      destruct (websocket st); reflexivity.
  - cbn. symmetry. apply set_remove_absent. intros Hin.
    apply existsb_eqb_In in Hin. cbn in Hhas. congruence.
Qed.

(** X22. [removeWallet] returns true exactly for a tracked address.  For an
    address that is not tracked nothing changes and no timer is set;
    otherwise the address leaves the set while the other wallets stay, in
    their order.  Removing an address that [addWallet] has just added to a
    set that did not hold it gives the former set back. *)
Theorem removeWallet_removes (walletAddress : string) (st : Backend) :
  let result := removeWallet walletAddress st in
  (fst (fst result) = true <-> In walletAddress (trackedWallets st)) /\
  (~ In walletAddress (trackedWallets st) -> result = (false, st, None)) /\
  (forall w, In w (trackedWallets (snd (fst result)))
             <-> In w (trackedWallets st) /\ w <> walletAddress) /\
  trackedWallets (snd (fst result))
  = List.filter (fun w => negb (String.eqb walletAddress w)) (trackedWallets st) /\
  (validateWalletAddress walletAddress = true ->
   ~ In walletAddress (trackedWallets st) ->
   trackedWallets (snd (fst (removeWallet walletAddress (snd (addWallet walletAddress st)))))
   = trackedWallets st).
Proof.
  cbv zeta. split; [| split; [| split; [| split]]].
  - unfold removeWallet. rewrite <- existsb_eqb_In. cbn [has].
    destruct (existsb (String.eqb walletAddress) (trackedWallets st)).
    + cbn [trackedWallets set_trackedWallets websocket].
      destruct (set_remove walletAddress (trackedWallets st));
        destruct (websocket st); cbn; tauto.
    + cbn. split; discriminate.
  - intros Hnot. unfold removeWallet. cbn [has].
    destruct (existsb (String.eqb walletAddress) (trackedWallets st)) eqn:E; [| reflexivity].
    apply existsb_eqb_In in E. contradiction.
  - intros w. rewrite removeWallet_trackedWallets. apply set_remove_spec.
  - apply removeWallet_trackedWallets.
  - intros Hvalid Hnot.
    rewrite removeWallet_trackedWallets, (addWallet_trackedWallets _ _ Hvalid).
    now apply set_remove_added.
Qed.

(** X23. When wallets remain and a socket is held, [removeWallet] closes
    the socket and hands to its timer the set as it is at that moment; when
    the timer fires, that set replaces the tracked set.  A wallet that
    [addWallet] accepted in between is then no longer tracked. *)
Theorem removeWallet_timer_restores_snapshot
    (walletAddress added : string) (st : Backend) :
  websocket st = true ->
  In walletAddress (trackedWallets st) ->
  set_remove walletAddress (trackedWallets st) <> [] ->
  validateWalletAddress added = true ->
  ~ In added (set_remove walletAddress (trackedWallets st)) ->
  let remaining := set_remove walletAddress (trackedWallets st) in
  exists st1,
    removeWallet walletAddress st = (true, st1, Some remaining) /\
    effects st1 = (effects st ++ [WsClose 1000 "Updating subscriptions"])%list /\
    fst (addWallet added st1) = true /\
    In added (trackedWallets (snd (addWallet added st1))) /\
    trackedWallets (restoreAndConnect remaining (snd (addWallet added st1))) = remaining /\
    ~ In added (trackedWallets (restoreAndConnect remaining (snd (addWallet added st1)))).
Proof.
  intros Hsocket Hin Hrest Hvalid Hnew. cbv zeta.
  remember (set_remove walletAddress (trackedWallets st)) as remaining eqn:Hremaining.
  assert (Hrestore : forall s,
             trackedWallets (restoreAndConnect remaining s) = remaining).
  { intros s. unfold restoreAndConnect, connect. cbn [trackedWallets set_trackedWallets].
    destruct remaining; reflexivity. }
  unfold removeWallet. cbn [has].
  apply existsb_eqb_In in Hin. rewrite Hin.
  cbn [trackedWallets set_trackedWallets websocket]. rewrite <- Hremaining.
  destruct remaining as [| r rs]; [congruence |].
  rewrite Hsocket. eexists. split; [reflexivity |].
  split; [reflexivity |].
  match goal with
  | |- context [addWallet added ?s] =>
      pose proof (addWallet_trackedWallets added s Hvalid) as Hadded
  end.
  split.
  { unfold addWallet. now rewrite Hvalid. }
  split.
  { rewrite Hadded. apply set_add_In. }
  split; [apply Hrestore |].
  rewrite Hrestore. exact Hnew.
Qed.

(** Two wallets tracked on an open socket; the first is removed and a third
    is added before the timer fires: the third is lost. *)
Lemma removeWallet_timer_restores_snapshot_witness :
  let w1 := "7xKXtg2CW87d97TXJSDpbD5jBkheTqA83TZRuJosgAsU" in
  let w2 := "9WzDXwBbmkg8ZTbNMqUxvQRAyrZzDsGYdLVL9zYtAWWM" in
  let w3 := "4k3Dyjzvzp8eMZWUXbBCjEvwSkkk59S5iCNLY3QrkX6R" in
  let st := set_trackedWallets [w1; w2] (watching w1) in
  exists st1,
    removeWallet w1 st = (true, st1, Some [w2]) /\
    fst (addWallet w3 st1) = true /\
    trackedWallets (restoreAndConnect [w2] (snd (addWallet w3 st1))) = [w2].
Proof.
  intros w1 w2 w3 st.
  destruct (removeWallet_timer_restores_snapshot w1 w3 st)
    as (st1 & Hremove & _ & Hadd & _ & Hrestored & _);
    [ reflexivity | now left | vm_compute; discriminate | reflexivity
    | vm_compute; intros [H | []]; discriminate | ].
  exists st1. split; [exact Hremove |]. split; [exact Hadd | exact Hrestored].
Defined.

Lemma connectionReachable_bounds (c : Connection) :
  connectionReachable c ->
  (1000 <= reconnectDelay c <= 30000)%Z /\
  maxReconnectAttempts c = 5%nat /\ (reconnectAttempts c <= 5)%nat.
Proof.
  assert (Hretry : forall c,
             (1000 <= reconnectDelay c <= 30000)%Z /\
             maxReconnectAttempts c = 5%nat /\ (reconnectAttempts c <= 5)%nat ->
             (1000 <= reconnectDelay (handleReconnect c) <= 30000)%Z /\
             maxReconnectAttempts (handleReconnect c) = 5%nat /\
             (reconnectAttempts (handleReconnect c) <= 5)%nat).
  { intros c0 (Hd & Hm & Ha). unfold handleReconnect.
    destruct (Nat.leb_spec (maxReconnectAttempts c0) (reconnectAttempts c0));
      cbn [reconnectDelay maxReconnectAttempts reconnectAttempts]; repeat split; lia. }
  induction 1 as [| c Hc IH | c wasClean Hc IH | c Hc IH].
  - cbn. repeat split; lia.
  - unfold onopen. cbn [reconnectDelay maxReconnectAttempts reconnectAttempts].
    destruct IH as (Hd & Hm & _). repeat split; lia.
  - unfold onclose. destruct wasClean; cbn [negb]; [exact IH |].
    apply Hretry. exact IH.
  - apply Hretry. exact IH.
Qed.

(** X24. The reconnection delay only grows: in every state reached from
    the constructor under the socket events it lies between 1000 and 30000
    ms and at most five attempts are counted; a retry never lowers it, and
    [onopen], which resets the attempt counter, leaves it as it is, so that
    the back-off of earlier failures is kept after a successful
    reconnection. *)
Theorem reconnectDelay_only_grows (c : Connection) :
  connectionReachable c ->
  (1000 <= reconnectDelay c <= 30000)%Z /\
  (reconnectAttempts c <= 5)%nat /\
  (reconnectDelay c <= reconnectDelay (handleReconnect c))%Z /\
  reconnectDelay (onopen c) = reconnectDelay c /\
  reconnectAttempts (onopen c) = 0%nat.
Proof.
  intros Hreach. destruct (connectionReachable_bounds c Hreach) as (Hd & _ & Ha).
  split; [exact Hd |]. split; [exact Ha |]. split; [| split; reflexivity].
  unfold handleReconnect.
  destruct (maxReconnectAttempts c <=? reconnectAttempts c)%nat; cbn [reconnectDelay]; lia.
Qed.

(** Two failed attempts, then a successful one: the delay stays at 4000. *)
Lemma reconnectDelay_only_grows_witness :
  reconnectDelay (onopen (handleReconnect (handleReconnect newConnection))) = 4000%Z.
Proof.
  destruct (reconnectDelay_only_grows (handleReconnect (handleReconnect newConnection)))
    as (_ & _ & _ & Hkept & _).
  - apply conn_retry, conn_retry, conn_new.
  - rewrite Hkept. reflexivity.
Defined.

(** X25. Retries are bounded: from a state with [a] attempts counted out
    of a maximum [m], [k] calls of [handleReconnect] in a row set
    [min k (m - a)] timers and count [min (a + k) m] attempts; once the
    maximum is reached, [handleReconnect] does nothing at all. *)
Theorem handleReconnect_gives_up (k : nat) (c : Connection) :
  (reconnectAttempts c <= maxReconnectAttempts c)%nat ->
  let c' := Nat.iter k handleReconnect c in
  reconnectAttempts c' = Nat.min (reconnectAttempts c + k) (maxReconnectAttempts c) /\
  maxReconnectAttempts c' = maxReconnectAttempts c /\
  length (effects (conn_backend c'))
  = (length (effects (conn_backend c))
     + Nat.min k (maxReconnectAttempts c - reconnectAttempts c))%nat /\
  ((maxReconnectAttempts c <= reconnectAttempts c + k)%nat -> handleReconnect c' = c').
Proof.
  intros Hle. cbv zeta.
  assert (Hiter : reconnectAttempts (Nat.iter k handleReconnect c)
                  = Nat.min (reconnectAttempts c + k) (maxReconnectAttempts c) /\
                  maxReconnectAttempts (Nat.iter k handleReconnect c)
                  = maxReconnectAttempts c /\
                  length (effects (conn_backend (Nat.iter k handleReconnect c)))
                  = (length (effects (conn_backend c))
                     + Nat.min k (maxReconnectAttempts c - reconnectAttempts c))%nat).
  { induction k as [| k (Ha & Hm & He)].
    - cbn. repeat split; lia.
    - rewrite Nat.iter_succ.
      remember (Nat.iter k handleReconnect c) as ck eqn:Hck. clear Hck.
      unfold handleReconnect.
      destruct (Nat.leb_spec (maxReconnectAttempts ck) (reconnectAttempts ck)).
      + repeat split; lia.
      + cbn [reconnectAttempts maxReconnectAttempts conn_backend effects emit].
        rewrite length_app. cbn [length]. repeat split; lia. }
  destruct Hiter as (Ha & Hm & He).
  split; [exact Ha |]. split; [exact Hm |]. split; [exact He |].
  intros Hmax.
  remember (Nat.iter k handleReconnect c) as ck eqn:Hck. clear Hck.
  unfold handleReconnect.
  destruct (Nat.leb_spec (maxReconnectAttempts ck) (reconnectAttempts ck));
    [reflexivity | lia].
Qed.

(** Seven failures in a row from the constructor's state: five timers. *)
Lemma handleReconnect_gives_up_witness :
  length (effects (conn_backend (Nat.iter 7 handleReconnect newConnection))) = 5%nat.
Proof.
  destruct (handleReconnect_gives_up 7 newConnection) as (_ & _ & Htimers & _).
  - cbn. lia.
  - exact Htimers.
Defined.

End WalletSet.

(** * Further properties of the rate-limited queues *)

Section Queues.
Import JsString Helius HeliusRest.

(** X26. With nothing waiting and the interval elapsed since the last
    batch call, [getAssetInfo] through the queue answers what the direct
    path answers: the cached entries, or the result of the one request it
    sends for its own list; the queue is empty again and no timer is set. *)
Theorem getAssetInfo_idle_queue_is_direct
    (now responseTime : Z) (mintAddresses : list string) (response : BatchResponse)
    (q : Queued) :
  assetBatchQueue q = [] ->
  (rateLimitDelay q <= now - lastAssetBatchCall q)%Z ->
  let direct := getAssetInfo responseTime mintAddresses response (q_backend q) in
  let queued := getAssetInfoQueued now responseTime mintAddresses response q in
  q_backend (snd queued) = snd direct /\
  assetBatchQueue (snd queued) = [] /\
  queueTimers (snd queued) = queueTimers q /\
  (fst queued = FromCache (fst direct) \/
   fst queued = Pending (Some (mintAddresses, fst direct)) /\
   lastAssetBatchCall (snd queued) = now).
Proof.
  intros Hempty Hdue. cbv zeta. unfold getAssetInfoQueued, getAssetInfo.
  destruct (length (omap (fun mint => tokenInfoCache (q_backend q) !! mint) mintAddresses)
            =? length mintAddresses)%nat.
  - cbn. rewrite Hempty. auto.
  - unfold processAssetBatchQueue.
    cbn [assetBatchQueue lastAssetBatchCall rateLimitDelay q_backend
         enhancedTransactionQueue lastEnhancedCall queueTimers].
    rewrite Hempty. cbn [app].
    destruct (Z.ltb_spec (now - lastAssetBatchCall q) (rateLimitDelay q)); [lia |].
    destruct (fetchAssetInfoDirect responseTime mintAddresses response (q_backend q))
      as [result st']. cbn. repeat split; try reflexivity. right. split; reflexivity.
Qed.

(** A first request for one uncached mint, 2000 ms after start. *)
Lemma getAssetInfo_idle_queue_is_direct_witness :
  fst (getAssetInfoQueued 2000 2100 ["FooMint"] (BatchResult [assetOf "FooMint" "FOO"])
         newQueued)
  = Pending (Some (["FooMint"],
                   fst (getAssetInfo 2100 ["FooMint"]
                          (BatchResult [assetOf "FooMint" "FOO"]) constructor))).
Proof.
  destruct (getAssetInfo_idle_queue_is_direct 2000 2100 ["FooMint"]
              (BatchResult [assetOf "FooMint" "FOO"]) newQueued)
    as (_ & _ & _ & [Hcache | (Hpending & _)]);
    [reflexivity | cbn; lia | discriminate Hcache | exact Hpending].
Defined.

(** X27. With nothing waiting and the interval elapsed since the last
    detail call, [getEnhancedTransaction] through the queue resolves the
    caller's own signature with what the direct request gives, sends that
    one request, and sets no timer. *)
Theorem getEnhancedTransaction_idle_queue_is_direct
    (now : Z) (signature : string) (response : EnhancedResponse) (q : Queued) :
  enhancedTransactionQueue q = [] ->
  (rateLimitDelay q <= now - lastEnhancedCall q)%Z ->
  let direct := getEnhancedTransaction signature response (q_backend q) in
  let queued := getEnhancedTransactionQueued now signature response q in
  fst queued = Some (signature, fst direct) /\
  q_backend (snd queued) = snd direct /\
  enhancedRequests (effects (q_backend (snd queued)))
  = (enhancedRequests (effects (q_backend q)) ++ [signature])%list /\
  enhancedTransactionQueue (snd queued) = [] /\
  lastEnhancedCall (snd queued) = now /\
  queueTimers (snd queued) = queueTimers q.
Proof.
  intros Hempty Hdue. cbv zeta.
  unfold getEnhancedTransactionQueued, processEnhancedTransactionQueue.
  cbn [assetBatchQueue lastAssetBatchCall rateLimitDelay q_backend
       enhancedTransactionQueue lastEnhancedCall queueTimers].
  rewrite Hempty. cbn [app].
  destruct (Z.ltb_spec (now - lastEnhancedCall q) (rateLimitDelay q)); [lia |].
  pose proof (getEnhancedTransaction_requests signature response (q_backend q)) as Hreq.
  unfold getEnhancedTransaction in *.
  destruct (fetchEnhancedTransactionDirect signature response (q_backend q))
    as [result st']. cbn in *. repeat split; try reflexivity. exact Hreq.
Qed.

Lemma getEnhancedTransaction_idle_queue_is_direct_witness :
  fst (getEnhancedTransactionQueued 2000 "5sig" EnhancedError newQueued)
  = Some ("5sig", None).
Proof.
  destruct (getEnhancedTransaction_idle_queue_is_direct 2000 "5sig" EnhancedError newQueued)
    as (Hserved & _); [reflexivity | cbn; lia | exact Hserved].
Defined.

Lemma processEnhancedTransactionQueue_served
    (now : Z) (response : EnhancedResponse) (q : Queued) :
  fst (processEnhancedTransactionQueue now response q) <> None ->
  exists sig rest,
    enhancedTransactionQueue q = sig :: rest /\
    (rateLimitDelay q <= now - lastEnhancedCall q)%Z /\
    fst (processEnhancedTransactionQueue now response q)
    = Some (sig, fst (fetchEnhancedTransactionDirect sig response (q_backend q))) /\
    q_backend (snd (processEnhancedTransactionQueue now response q))
    = snd (fetchEnhancedTransactionDirect sig response (q_backend q)) /\
    enhancedTransactionQueue (snd (processEnhancedTransactionQueue now response q)) = rest /\
    lastEnhancedCall (snd (processEnhancedTransactionQueue now response q)) = now /\
    rateLimitDelay (snd (processEnhancedTransactionQueue now response q)) = rateLimitDelay q.
Proof.
  unfold processEnhancedTransactionQueue.
  destruct (enhancedTransactionQueue q) as [| sig rest];
    [cbn [fst]; intros Hnone; now destruct Hnone |].
  destruct (Z.ltb_spec (now - lastEnhancedCall q) (rateLimitDelay q));
    [cbn [fst]; intros Hnone; now destruct Hnone |].
  intros _. exists sig, rest.
  destruct (fetchEnhancedTransactionDirect sig response (q_backend q)) as [result st'].
  destruct rest; cbn; repeat split; auto.
Qed.

(** X28. Two detail requests served one after the other by the queue are
    at least [rateLimitDelay] apart, each sends exactly one request, for
    the signatures at the front of the queue, in the order of the queue. *)
Theorem processEnhancedTransactionQueue_spacing
    (now1 now2 : Z) (response1 response2 : EnhancedResponse) (q : Queued) :
  let first := processEnhancedTransactionQueue now1 response1 q in
  let second := processEnhancedTransactionQueue now2 response2 (snd first) in
  fst first <> None ->
  fst second <> None ->
  (rateLimitDelay q <= now2 - now1)%Z /\
  exists sig1 sig2 rest result1 result2,
    enhancedTransactionQueue q = sig1 :: sig2 :: rest /\
    fst first = Some (sig1, result1) /\
    fst second = Some (sig2, result2) /\
    enhancedTransactionQueue (snd second) = rest /\
    enhancedRequests (effects (q_backend (snd second)))
    = (enhancedRequests (effects (q_backend q)) ++ [sig1; sig2])%list.
Proof.
  cbv zeta. intros Hfirst Hsecond.
  destruct (processEnhancedTransactionQueue_served _ _ _ Hfirst)
    as (sig1 & rest1 & Hq & Hdue1 & Hres1 & Hback1 & Hrest1 & Hlast1 & Hdelay1).
  destruct (processEnhancedTransactionQueue_served _ _ _ Hsecond)
    as (sig2 & rest & Hq2 & Hdue2 & Hres2 & Hback2 & Hrest2 & _ & _).
  rewrite Hlast1, Hdelay1 in Hdue2. split; [exact Hdue2 |].
  rewrite Hrest1 in Hq2. rewrite Hq2 in Hq.
  exists sig1, sig2, rest. eexists. eexists.
  split; [exact Hq |]. split; [exact Hres1 |]. split; [exact Hres2 |].
  split; [exact Hrest2 |].
  rewrite Hback2, Hback1.
  pose proof (getEnhancedTransaction_requests sig2 response2
                (snd (fetchEnhancedTransactionDirect sig1 response1 (q_backend q)))) as Hreq2.
  pose proof (getEnhancedTransaction_requests sig1 response1 (q_backend q)) as Hreq1.
  unfold getEnhancedTransaction in Hreq1, Hreq2.
  rewrite Hreq2, Hreq1, <- app_assoc. reflexivity.
Qed.

(** Two signatures waiting, served at 2000 and 3200. *)
Lemma processEnhancedTransactionQueue_spacing_witness :
  let q := mkQueued constructor ["sigA"; "sigB"] [] 0 0 1200 [] in
  exists q',
    processEnhancedTransactionQueue 3200 EnhancedError
      (snd (processEnhancedTransactionQueue 2000 EnhancedError q))
    = (Some ("sigB", None), q') /\
    enhancedRequests (effects (q_backend q')) = ["sigA"; "sigB"].
Proof.
  intros q.
  destruct (processEnhancedTransactionQueue_spacing 2000 3200 EnhancedError EnhancedError q)
    as (_ & sig1 & sig2 & rest & result1 & result2 & Hq & _ & _ & _ & Hreq);
    [discriminate | discriminate |].
  eexists. split; [reflexivity |].
  injection Hq as <- <- <-. exact Hreq.
Defined.

Lemma processAssetBatchQueue_due
    (now responseTime : Z) (response : BatchResponse) (mintAddresses : list string)
    (rest : list (list string)) (q : Queued) :
  assetBatchQueue q = mintAddresses :: rest ->
  (rateLimitDelay q <= now - lastAssetBatchCall q)%Z ->
  let served := processAssetBatchQueue now responseTime response q in
  fst served
  = Some (mintAddresses,
          fst (fetchAssetInfoDirect responseTime mintAddresses response (q_backend q))) /\
  q_backend (snd served)
  = snd (fetchAssetInfoDirect responseTime mintAddresses response (q_backend q)) /\
  assetBatchQueue (snd served) = rest /\
  lastAssetBatchCall (snd served) = now /\
  queueTimers (snd served)
  = (queueTimers q ++ match rest with
                      | [] => []
                      | _ :: _ => [(ProcessAssetBatchQueue, rateLimitDelay q)]
                      end)%list.
Proof.
  intros Hq Hdue. cbv zeta. unfold processAssetBatchQueue. rewrite Hq.
  destruct (Z.ltb_spec (now - lastAssetBatchCall q) (rateLimitDelay q)); [lia |].
  destruct (fetchAssetInfoDirect responseTime mintAddresses response (q_backend q))
    as [result st'].
  destruct rest; cbn; rewrite ?app_nil_r; repeat split; reflexivity.
Qed.

Lemma processAssetBatchQueue_early
    (now responseTime : Z) (response : BatchResponse) (mintAddresses : list string)
    (rest : list (list string)) (q : Queued) :
  assetBatchQueue q = mintAddresses :: rest ->
  (now - lastAssetBatchCall q < rateLimitDelay q)%Z ->
  processAssetBatchQueue now responseTime response q
  = (None, setQueueTimer ProcessAssetBatchQueue
             (rateLimitDelay q - (now - lastAssetBatchCall q)) q).
Proof.
  intros Hq Hearly. unfold processAssetBatchQueue. rewrite Hq.
  destruct (Z.ltb_spec (now - lastAssetBatchCall q) (rateLimitDelay q)); [reflexivity | lia].
Qed.

(** X29. A batch request that comes up too early is not sent and not lost:
    the backend and the queue are as before, one timer is set for what is
    missing of the interval, and the processor run after that delay serves
    the request at the front with the list it was queued with. *)
Theorem processAssetBatchQueue_deferred_then_served
    (now responseTime : Z) (response : BatchResponse) (mintAddresses : list string)
    (rest : list (list string)) (q : Queued) :
  assetBatchQueue q = mintAddresses :: rest ->
  (now - lastAssetBatchCall q < rateLimitDelay q)%Z ->
  let deferred := processAssetBatchQueue now responseTime response q in
  let delay := (rateLimitDelay q - (now - lastAssetBatchCall q))%Z in
  fst deferred = None /\
  q_backend (snd deferred) = q_backend q /\
  assetBatchQueue (snd deferred) = assetBatchQueue q /\
  lastAssetBatchCall (snd deferred) = lastAssetBatchCall q /\
  queueTimers (snd deferred) = (queueTimers q ++ [(ProcessAssetBatchQueue, delay)])%list /\
  (0 < delay)%Z /\
  let served := processAssetBatchQueue (now + delay) responseTime response (snd deferred) in
  fst served
  = Some (mintAddresses,
          fst (fetchAssetInfoDirect responseTime mintAddresses response (q_backend q))) /\
  assetBatchQueue (snd served) = rest /\
  assetBatchRequests (effects (q_backend (snd served)))
  = (assetBatchRequests (effects (q_backend q)) ++ [mintAddresses])%list.
Proof.
  intros Hq Hearly. cbv zeta.
  rewrite (processAssetBatchQueue_early now responseTime response mintAddresses rest q Hq Hearly).
  cbn [fst snd setQueueTimer q_backend assetBatchQueue lastAssetBatchCall queueTimers].
  repeat (split; [first [reflexivity | lia] |]).
  destruct (processAssetBatchQueue_due
              (now + (rateLimitDelay q - (now - lastAssetBatchCall q))) responseTime response
              mintAddresses rest
              (setQueueTimer ProcessAssetBatchQueue
                 (rateLimitDelay q - (now - lastAssetBatchCall q)) q))
    as (Hserved & Hback & Hrest & _); [exact Hq | cbn; lia |].
  cbn [setQueueTimer q_backend] in Hserved, Hback.
  split; [exact Hserved |]. split; [exact Hrest |].
  rewrite Hback. apply fetchAssetInfoDirect_requests.
Qed.

(** A request 500 ms after the last call waits 700 ms. *)
Lemma processAssetBatchQueue_deferred_then_served_witness :
  let q := mkQueued constructor [] [["FooMint"]] 0 1500 1200 [] in
  queueTimers (snd (processAssetBatchQueue 2000 2100 BatchError q))
  = [(ProcessAssetBatchQueue, 700%Z)].
Proof.
  intros q.
  destruct (processAssetBatchQueue_deferred_then_served 2000 2100 BatchError ["FooMint"] [] q)
    as (_ & _ & _ & _ & Htimer & _); [reflexivity | cbn; lia |].
  exact Htimer.
Defined.

(** X30. A batch request made while another one waits goes behind it: with
    the interval elapsed, the call sends the request at the front of the
    queue, not its own, leaves its own list last in the queue, and sets a
    timer of [rateLimitDelay] for the next run. *)
Theorem getAssetInfo_queues_behind_waiting
    (now responseTime : Z) (mintAddresses waiting : list string)
    (rest : list (list string)) (response : BatchResponse) (q : Queued) :
  assetBatchQueue q = waiting :: rest ->
  (rateLimitDelay q <= now - lastAssetBatchCall q)%Z ->
  (exists mint, In mint mintAddresses /\ tokenInfoCache (q_backend q) !! mint = None) ->
  let queued := getAssetInfoQueued now responseTime mintAddresses response q in
  fst queued
  = Pending (Some (waiting,
                   fst (fetchAssetInfoDirect responseTime waiting response (q_backend q)))) /\
  assetBatchQueue (snd queued) = (rest ++ [mintAddresses])%list /\
  assetBatchRequests (effects (q_backend (snd queued)))
  = (assetBatchRequests (effects (q_backend q)) ++ [waiting])%list /\
  queueTimers (snd queued)
  = (queueTimers q ++ [(ProcessAssetBatchQueue, rateLimitDelay q)])%list.
Proof.
  intros Hq Hdue (mint & Hin & Hmiss). cbv zeta. unfold getAssetInfoQueued.
  assert (Hshort : (length (omap (fun mint => tokenInfoCache (q_backend q) !! mint)
                              mintAddresses) =? length mintAddresses)%nat = false).
  { apply Nat.eqb_neq. intros Hlen. apply omap_all_Some in Hlen.
    rewrite Forall_forall in Hlen. destruct (Hlen mint) as (v & Hv).
    - now apply list_elem_of_In.
    - cbv beta in Hv. congruence. }
  rewrite Hshort.
  destruct (processAssetBatchQueue_due now responseTime response waiting
              (rest ++ [mintAddresses])%list
              (mkQueued (q_backend q) (enhancedTransactionQueue q)
                 (assetBatchQueue q ++ [mintAddresses]) (lastEnhancedCall q)
                 (lastAssetBatchCall q) (rateLimitDelay q) (queueTimers q)))
    as (Hserved & Hback & Hrest & _ & Htimers);
    [cbn; now rewrite Hq | cbn; lia |].
  cbn [q_backend rateLimitDelay queueTimers] in Hserved, Hback, Htimers.
  destruct (processAssetBatchQueue now responseTime response _) as [served q'].
  cbn [fst snd] in *.
  split; [now rewrite Hserved |]. split; [exact Hrest |].
  split; [rewrite Hback; apply fetchAssetInfoDirect_requests |].
  rewrite Htimers. destruct rest; reflexivity.
Qed.

(** One list waiting; a second call 2000 ms after start. *)
Lemma getAssetInfo_queues_behind_waiting_witness :
  let q := mkQueued constructor [] [["FooMint"]] 0 0 1200 [] in
  assetBatchQueue (snd (getAssetInfoQueued 2000 2100 ["BarMint"] BatchError q))
  = [["BarMint"]].
Proof.
  intros q.
  destruct (getAssetInfo_queues_behind_waiting 2000 2100 ["BarMint"] ["FooMint"] []
              BatchError q) as (_ & Hqueue & _);
    [ reflexivity | cbn; lia | exists "BarMint"; split; [now left | reflexivity] | ].
  exact Hqueue.
Defined.

End Queues.
